(** * Rasperature: the edge telemetry pipeline

  A shallow embedding of the Raspberry Pi application's sensor polling
  ([pi-app/sensors/base.py], [pi-app/sensor_manager.py]), of its sensor
  registry and drivers ([pi-app/sensors/__init__.py], [bmp280.py],
  [dht22.py]) and of its cloud publisher ([pi-app/cloud_publisher.py]),
  followed by the properties of the downsample filter, the batcher, the
  offline buffer, the collection loop and the set of sensors.

  Python dictionaries that are only looked up are finite maps; lists and
  the deque are lists with the oldest element first; Python floats are
  binary64 primitive floats; the outside world (clock, Pub/Sub client,
  disk, sensor hardware, threads) is an explicit environment record that
  every effectful method threads through. *)

From Stdlib Require Import ZArith Floats.PrimFloat Floats.SpecFloat
  Floats.FloatOps Floats.FloatAxioms Numbers.Cyclic.Int63.Uint63.
From stdpp Require Import gmap strings list fin_maps.

#[local] Set Warnings "-inexact-float".

Local Open Scope string_scope.
Local Open Scope list_scope.

(** ** Readings *)

(** JSON values as the configuration file holds them; a list or an object
    is kept as its text. *)
Inductive json :=
| JNull
| JBool (b : bool)
| JInt (n : Z)
| JFloat (x : float)
| JStr (s : string)
| JStructured (text : string).

(** The dictionary built by [BaseSensor.read_with_metadata] and extended by
  the collection loop.  Keys that are not always present are options. *)
Module Reading.

Record t := mk {
  sensor_id : string;
  sensor_type : string;
  timestamp : string;
  readings : gmap string float;
  status : string;
  error : option string;
  error_count : option nat;
  device_id : option json;
  customer_id : option json;
  location : option json
}.

(** [reading['device_id'] = ...; reading['customer_id'] = ...;
    reading['location'] = ...] *)
Definition with_device (d c l : json) (r : t) : t :=
  mk (sensor_id r) (sensor_type r) (timestamp r) (readings r) (status r)
     (error r) (error_count r) (Some d) (Some c) (Some l).

End Reading.

(** A clock is the sequence of values that successive calls of
  [time.time()] (or [datetime.now()]) return. *)
Module Clock.

Record t (A : Type) := mk { source : nat -> A; calls : nat }.
Arguments mk {A} _ _.
Arguments source {A} _ _.
Arguments calls {A} _.

Definition now {A} (c : t A) : A * t A :=
  (source c (calls c), mk (source c) (S (calls c))).

End Clock.

(** ** cloud_publisher.py *)

Module CloudPublisher.

(** An item of a message list or of the offline buffer:
    [json.dumps(reading).encode('utf-8')] is a [bytes] object, kept
    symbolic; [json.load] gives [str] items. *)
Inductive message :=
| Bytes (reading : Reading.t)
| Str (s : string).

(** The value [publisher.publish] returns: a future whose [result]
    either returns or raises. *)
Inductive future := Future (resolves : bool).

Inductive pubsub_client := PublisherClient (with_credentials : bool).

(** What [offline_buffer.json] holds: a JSON array of strings, or text
    that is not a JSON document. *)
Inductive file_content :=
| JsonArray (items : list string)
| Malformed.

(** The configuration dictionary handed to the constructor. *)
Record config := mk_config {
  cfg_enabled : option bool;
  cfg_project_id : option string;
  cfg_topic_name : option string;
  cfg_credentials_file : option string;
  cfg_batch_size : option Z;
  cfg_max_batch_wait : option float
}.

(** The world outside the publisher object. *)
Record env := mk_env {
  (** [time.time()] *)
  clock : Clock.t float;
  (** is google-cloud-pubsub importable *)
  pubsub_available : bool;
  (** does the credentials file exist *)
  credentials_exist : bool;
  (** does constructing the client succeed *)
  client_constructs : bool;
  (** the Pub/Sub client: given the calls made so far and a message,
      [publish] raises ([None]) or returns a future *)
  pubsub : list message -> message -> option future;
  (** the calls of [publisher.publish] made so far, oldest first *)
  sent : list message;
  (** [offline_buffer.json]; [None] when the file does not exist *)
  offline_buffer_file : option file_content;
  (** does [open(..., 'w')] succeed *)
  disk_writable : bool
}.

Definition set_clock (c : Clock.t float) (e : env) : env :=
  mk_env c (pubsub_available e) (credentials_exist e) (client_constructs e)
         (pubsub e) (sent e) (offline_buffer_file e) (disk_writable e).

Definition set_sent (l : list message) (e : env) : env :=
  mk_env (clock e) (pubsub_available e) (credentials_exist e)
         (client_constructs e) (pubsub e) l (offline_buffer_file e)
         (disk_writable e).

Definition set_offline_buffer_file (f : option file_content) (e : env) : env :=
  mk_env (clock e) (pubsub_available e) (credentials_exist e)
         (client_constructs e) (pubsub e) (sent e) f (disk_writable e).

(** [time.time()] *)
Definition time_time (e : env) : float * env :=
  let '(t, c) := Clock.now (clock e) in (t, set_clock c e).

(** The attributes of a [CloudPublisher] instance. *)
Record t := mk {
  enabled : bool;
  batch_size : Z;
  max_batch_wait : float;
  publisher : option pubsub_client;
  message_queue : list Reading.t;
  last_published_values : gmap string (gmap string float);
  publish_count : nat;
  error_count : nat;
  last_batch_time : float;
  offline_buffer : list message
}.

Definition set_enabled (b : bool) (p : t) : t :=
  mk b (batch_size p) (max_batch_wait p) (publisher p) (message_queue p)
     (last_published_values p) (publish_count p) (error_count p)
     (last_batch_time p) (offline_buffer p).

Definition set_publisher (c : option pubsub_client) (p : t) : t :=
  mk (enabled p) (batch_size p) (max_batch_wait p) c (message_queue p)
     (last_published_values p) (publish_count p) (error_count p)
     (last_batch_time p) (offline_buffer p).

Definition set_message_queue (q : list Reading.t) (p : t) : t :=
  mk (enabled p) (batch_size p) (max_batch_wait p) (publisher p) q
     (last_published_values p) (publish_count p) (error_count p)
     (last_batch_time p) (offline_buffer p).

Definition set_last_published_values
    (v : gmap string (gmap string float)) (p : t) : t :=
  mk (enabled p) (batch_size p) (max_batch_wait p) (publisher p)
     (message_queue p) v (publish_count p) (error_count p)
     (last_batch_time p) (offline_buffer p).

Definition set_publish_count (n : nat) (p : t) : t :=
  mk (enabled p) (batch_size p) (max_batch_wait p) (publisher p)
     (message_queue p) (last_published_values p) n (error_count p)
     (last_batch_time p) (offline_buffer p).

Definition set_error_count (n : nat) (p : t) : t :=
  mk (enabled p) (batch_size p) (max_batch_wait p) (publisher p)
     (message_queue p) (last_published_values p) (publish_count p) n
     (last_batch_time p) (offline_buffer p).

Definition set_last_batch_time (x : float) (p : t) : t :=
  mk (enabled p) (batch_size p) (max_batch_wait p) (publisher p)
     (message_queue p) (last_published_values p) (publish_count p)
     (error_count p) x (offline_buffer p).

Definition set_offline_buffer (b : list message) (p : t) : t :=
  mk (enabled p) (batch_size p) (max_batch_wait p) (publisher p)
     (message_queue p) (last_published_values p) (publish_count p)
     (error_count p) (last_batch_time p) b.

(** *** should_publish *)

(** The [for metric, value in current_readings.items()] loop, with its
    early [return True]. *)
Fixpoint any_metric_moved (items : list (string * float))
    (last_reading thresholds : gmap string float) : bool :=
  match items with
  | [] => false
  | (metric, value) :: rest =>
      match last_reading !! metric with
      | Some last_value =>
          let threshold := default 0%float (thresholds !! metric) in
          if (threshold <? abs (value - last_value))%float then true
          else any_metric_moved rest last_reading thresholds
      | None => any_metric_moved rest last_reading thresholds
      end
  end.

Definition should_publish (p : t) (reading : Reading.t)
    (thresholds : gmap string float) : bool :=
  match last_published_values p !! Reading.sensor_id reading with
  | None => true
  | Some last_reading =>
      any_metric_moved (map_to_list (Reading.readings reading))
                       last_reading thresholds
  end.

(** *** _save_offline_buffer, _load_offline_buffer *)

(** [json.dump] of a list: a [str] item is written, a [bytes] item raises
    [TypeError] ([None]). *)
Fixpoint json_dump (items : list message) : option (list string) :=
  match items with
  | [] => Some []
  | Str s :: rest => cons s <$> json_dump rest
  | Bytes _ :: _ => None
  end.

(** [open(..., 'w')] truncates the file; when [json.dump] raises part-way
    the text left behind is not a JSON document.  Every exception is
    caught and printed. *)
Definition _save_offline_buffer (p : t) (e : env) : env :=
  if disk_writable e then
    match json_dump (offline_buffer p) with
    | Some items => set_offline_buffer_file (Some (JsonArray items)) e
    | None => set_offline_buffer_file (Some Malformed) e
    end
  else e.

Definition _load_offline_buffer (p : t) (e : env) : t :=
  match offline_buffer_file e with
  | Some (JsonArray items) => set_offline_buffer (Str <$> items) p
  | Some Malformed => p
  | None => p
  end.

(** *** _publish_batch *)

(** [while self.message_queue and len(messages) < self.batch_size]: returns
    the messages and what is left of the queue. *)
Fixpoint prepare_messages (batch_size : Z) (message_queue : list Reading.t)
    (messages : list message) : list message * list Reading.t :=
  match message_queue with
  | [] => (messages, [])
  | reading :: rest =>
      if (Z.of_nat (length messages) <? batch_size)%Z
      then prepare_messages batch_size rest (messages ++ [Bytes reading])
      else (messages, message_queue)
  end.

(** [for message_data in messages: futures.append(self.publisher.publish(...))];
    [None] as soon as a call raises (also when [self.publisher] is
    [None]). *)
Fixpoint publish_messages (client : option pubsub_client) (e : env)
    (messages : list message) (futures : list future)
    : option (list future) * env :=
  match messages with
  | [] => (Some futures, e)
  | message_data :: rest =>
      match client with
      | None => (None, e)
      | Some _ =>
          let e' := set_sent (sent e ++ [message_data]) e in
          match pubsub e (sent e) message_data with
          | None => (None, e')
          | Some future =>
              publish_messages client e' rest (futures ++ [future])
          end
      end
  end.

(** [for future in futures: future.result(timeout=10)]; [false] when one
    raises. *)
Fixpoint wait_results (futures : list future) : bool :=
  match futures with
  | [] => true
  | Future resolves :: rest => if resolves then wait_results rest else false
  end.

(** [list.pop()]: the last item and the list without it. *)
Fixpoint pop {A} (l : list A) : option (A * list A) :=
  match l with
  | [] => None
  | x :: rest =>
      match pop rest with
      | None => Some (x, [])
      | Some (y, rest') => Some (y, x :: rest')
      end
  end.

(** [while messages: self.offline_buffer.append(messages.pop())]; the fuel
    is the length of [messages]. *)
Fixpoint move_to_offline (fuel : nat) (messages offline_buffer : list message)
    : list message * list message :=
  match fuel with
  | O => (messages, offline_buffer)
  | S fuel' =>
      match pop messages with
      | None => (messages, offline_buffer)
      | Some (message_data, messages') =>
          move_to_offline fuel' messages' (offline_buffer ++ [message_data])
      end
  end.

Definition _publish_batch (p : t) (e : env) : t * env :=
  match message_queue p with
  | [] => (p, e)
  | _ :: _ =>
      let '(messages, queue) :=
        prepare_messages (batch_size p) (message_queue p) [] in
      let p := set_message_queue queue p in
      let '(futures, e) := publish_messages (publisher p) e messages [] in
      if match futures with Some fs => wait_results fs | None => false end
      then
        let p := set_publish_count (publish_count p + length messages) p in
        let '(now, e) := time_time e in
        (set_last_batch_time now p, e)
      else
        let p := set_error_count (error_count p + 1) p in
        let '(_, offline) :=
          move_to_offline (length messages) messages (offline_buffer p) in
        let p := set_offline_buffer offline p in
        (p, _save_offline_buffer p e)
  end.

(** The batch a flush attempt prepares, and whether its transport phase
    goes through (no [publish] call and no [result] raises). *)
Definition batch (p : t) : list message :=
  fst (prepare_messages (batch_size p) (message_queue p) []).

Definition attempt_ok (p : t) (e : env) : bool :=
  match fst (publish_messages (publisher p) e (batch p) []) with
  | Some futures => wait_results futures
  | None => false
  end.

(** *** publish *)

Section Filter.

(** [self.should_publish], looked up on the instance at every call. *)
Variable filter : t -> Reading.t -> gmap string float -> bool.

(** The body of [for reading in readings] in [publish]; [and] evaluates
    its right operand only when the left one holds. *)
Definition filter_reading (thresholds : gmap string float)
    (acc : list Reading.t * t) (reading : Reading.t) : list Reading.t * t :=
  let '(filtered_readings, p) := acc in
  if String.eqb (Reading.status reading) "ok" then
    if filter p reading thresholds then
      (filtered_readings ++ [reading],
       set_last_published_values
         (<[Reading.sensor_id reading := Reading.readings reading]>
            (last_published_values p)) p)
    else acc
  else acc.

Definition publish_with (p : t) (e : env) (readings : list Reading.t)
    (thresholds : gmap string float) : t * env :=
  if negb (enabled p) then (p, e)
  else
    let '(filtered_readings, p) :=
      fold_left (filter_reading thresholds) readings ([], p) in
    match filtered_readings with
    | [] => (p, e)
    | _ :: _ =>
        let p := set_message_queue (message_queue p ++ filtered_readings) p in
        let '(now, e) := time_time e in
        let time_since_batch := (now - last_batch_time p)%float in
        if (batch_size p <=? Z.of_nat (length (message_queue p)))%Z
           || (max_batch_wait p <=? time_since_batch)%float
        then _publish_batch p e
        else (p, e)
    end.

End Filter.

Definition publish : t -> env -> list Reading.t -> gmap string float -> t * env :=
  publish_with should_publish.

(** The readings of one [publish] call that pass the filter, oldest
    first. *)
Definition accepted (p : t) (readings : list Reading.t)
    (thresholds : gmap string float) : list Reading.t :=
  fst (fold_left (filter_reading should_publish thresholds) readings ([], p)).


(** *** flush, shutdown *)

Definition flush (p : t) (e : env) : t * env :=
  match message_queue p with
  | [] => (p, e)
  | _ :: _ => _publish_batch p e
  end.

Definition shutdown (p : t) (e : env) : t * env :=
  if enabled p then flush p e else (p, e).

(** *** The constructor *)

Definition _initialize_publisher (cfg : config) (p : t) (e : env) : bool * t :=
  if negb (pubsub_available e) then (false, set_enabled false p)
  else if client_constructs e then
    let with_credentials :=
      match cfg_credentials_file cfg with
      | Some f => negb (String.eqb f "") && credentials_exist e
      | None => false
      end in
    (true, set_publisher (Some (PublisherClient with_credentials)) p)
  else (false, set_enabled false p).

Definition __init__ (cfg : config) (e : env) : t * env :=
  let '(now, e) := time_time e in
  let p := mk (default false (cfg_enabled cfg))
              (default 10%Z (cfg_batch_size cfg))
              (default 5%float (cfg_max_batch_wait cfg))
              None [] ∅ 0 0 now [] in
  if enabled p then (snd (_initialize_publisher cfg p e), e) else (p, e).

(** The publisher after the filter loop accepted a reading. *)
Definition accept (p : t) (reading : Reading.t) : t :=
  set_last_published_values
    (<[Reading.sensor_id reading := Reading.readings reading]>
       (last_published_values p)) p.

(** *** get_stats *)

(** The dictionary [get_stats] returns; [last_batch_time] is kept as the
    timestamp its text is made from. *)
Record stats := mk_stats {
  stats_enabled : bool;
  stats_publish_count : nat;
  stats_error_count : nat;
  queue_size : nat;
  offline_buffer_size : nat;
  stats_last_batch_time : float
}.

Definition get_stats (p : t) : stats :=
  mk_stats (enabled p) (publish_count p) (error_count p)
           (length (message_queue p)) (length (offline_buffer p))
           (last_batch_time p).

(** The readings a publisher accounts for: those published, those still
    queued and those buffered. *)
Definition accounted (s : stats) : nat :=
  stats_publish_count s + queue_size s + offline_buffer_size s.

(** [n] calls of [flush] in a row. *)
Fixpoint flush_times (n : nat) (p : t) (e : env) : t * env :=
  match n with
  | O => (p, e)
  | S n' => let '(p, e) := flush p e in flush_times n' p e
  end.

End CloudPublisher.

(** ** sensors/base.py *)

Module BaseSensor.

(** What a call of the abstract [read] does: return the metric map or
    raise, with [str(e)] as the detail. *)
Inductive read_outcome :=
| Values (readings : gmap string float)
| Raises (detail : string).

Record t := mk {
  sensor_id : string;
  (** [get_sensor_type()] *)
  get_sensor_type : string;
  (** the hardware behind [read]: the outcome of its n-th call *)
  hardware : nat -> read_outcome;
  reads : nat;
  last_reading : option (gmap string float);
  last_reading_time : option string;
  is_active : bool;
  error_count : nat
}.

Definition read (s : t) : read_outcome * t :=
  (hardware s (reads s),
   mk (sensor_id s) (get_sensor_type s) (hardware s) (S (reads s))
      (last_reading s) (last_reading_time s) (is_active s) (error_count s)).

(** [datetime.now()] is read once on either path. *)
Definition read_with_metadata (s : t) (clock : Clock.t string)
    : Reading.t * t * Clock.t string :=
  let '(outcome, s) := read s in
  let '(now, clock) := Clock.now clock in
  match outcome with
  | Values readings =>
      let s := mk (sensor_id s) (get_sensor_type s) (hardware s) (reads s)
                  (Some readings) (Some now) (is_active s) 0 in
      (Reading.mk (sensor_id s) (get_sensor_type s) now readings "ok"
                  None None None None None, s, clock)
  | Raises detail =>
      let s := mk (sensor_id s) (get_sensor_type s) (hardware s) (reads s)
                  (last_reading s) (last_reading_time s) (is_active s)
                  (error_count s + 1) in
      (Reading.mk (sensor_id s) (get_sensor_type s) now ∅ "error"
                  (Some detail) (Some (error_count s)) None None None,
       s, clock)
  end.

(** The dictionary [get_status] returns (the sensor's own configuration
    left out). *)
Record status := mk_status {
  status_sensor_id : string;
  status_sensor_type : string;
  status_is_active : bool;
  status_last_reading_time : option string;
  status_last_reading : option (gmap string float);
  status_error_count : nat
}.

Definition get_status (s : t) : status :=
  mk_status (sensor_id s) (get_sensor_type s) (is_active s)
            (last_reading_time s) (last_reading s) (error_count s).

(** [n] successive calls of [read_with_metadata]: the readings, oldest
    first, and the sensor afterwards. *)
Fixpoint poll (n : nat) (s : t) (clock : Clock.t string)
    : list Reading.t * t * Clock.t string :=
  match n with
  | O => ([], s, clock)
  | S n' =>
      let '(reading, s, clock) := read_with_metadata s clock in
      let '(readings, s, clock) := poll n' s clock in
      (reading :: readings, s, clock)
  end.

(** The sensor id and status the next read of a sensor is reported
    with. *)
Definition next_status (s : t) : string * string :=
  (sensor_id s,
   match hardware s (reads s) with Values _ => "ok" | Raises _ => "error" end).

(** Whether each sensor of a dictionary is active and how often it was
    read; [used n] is what [n] passes over the sensors make of it. *)
Definition usage (sensors : list (string * t)) : list (bool * nat) :=
  map (fun x => (is_active x.2, reads x.2)) sensors.

Definition used (n : nat) (u : bool * nat) : bool * nat :=
  (u.1, if u.1 then u.2 + n else u.2).

(** [BaseSensor.should_publish]: the filter of the sensor itself, against
    its own [last_reading]. *)
Definition should_publish (s : t) (new_reading threshold : gmap string float)
    : bool :=
  match last_reading s with
  | None => true
  | Some last_reading =>
      CloudPublisher.any_metric_moved (map_to_list new_reading)
                                      last_reading threshold
  end.

End BaseSensor.

(** ** sensor_manager.py *)

Module SensorManager.

(** Operations on the collection thread, as the manager issues them. *)
Inductive thread_event :=
| Start (thread : nat)
| Join (thread : nat).

Record env := mk_env {
  (** [datetime.now().isoformat()] *)
  clock : Clock.t string;
  (** the configuration file; [None] when it does not exist *)
  config_file : option (gmap string json);
  (** does [open(..., 'w')] succeed *)
  disk_writable : bool;
  (** does [time.sleep] accept this value *)
  sleep_accepts : json -> bool;
  (** thread operations so far, oldest first *)
  threads : list thread_event;
  (** the batches handed to the data callback, oldest first, each with
      whether the callback returned ([true]) or raised *)
  delivered : list (list Reading.t * bool)
}.

Record t := mk {
  (** the [sensors] dictionary, in insertion order *)
  sensors : list (string * BaseSensor.t);
  config : gmap string json;
  is_running : bool;
  collection_thread : option nat;
  (** the registered callback: whether it returns ([true]) or raises *)
  data_callback : option (list Reading.t -> bool)
}.

Definition save_config (m : t) (e : env) : env :=
  if disk_writable e then
    mk_env (clock e) (Some (config m)) (disk_writable e) (sleep_accepts e)
           (threads e) (delivered e)
  else e.

Definition log_thread (ev : thread_event) (e : env) : env :=
  mk_env (clock e) (config_file e) (disk_writable e) (sleep_accepts e)
         (threads e ++ [ev]) (delivered e).

(** The number of threads created so far names the next one. *)
Fixpoint started (l : list thread_event) : nat :=
  match l with
  | [] => 0
  | Start _ :: rest => S (started rest)
  | Join _ :: rest => started rest
  end.

Definition start_collection (m : t) (e : env) : t * env :=
  if is_running m then (m, e)
  else
    let thread := started (threads e) in
    (mk (sensors m) (config m) true (Some thread) (data_callback m),
     log_thread (Start thread) e).

Definition stop_collection (m : t) (e : env) : t * env :=
  if negb (is_running m) then (m, e)
  else
    let m := mk (sensors m) (config m) false (collection_thread m)
                (data_callback m) in
    match collection_thread m with
    | Some thread => (m, log_thread (Join thread) e)
    | None => (m, e)
    end.

(** The thread operations of one [stop_collection]. *)
Definition stop_events (m : t) : list thread_event :=
  match collection_thread m with
  | Some thread => [Join thread]
  | None => []
  end.

(** [self.config.update(updates)] lets the keys of [updates] win. *)
Definition update_config (m : t) (e : env) (updates : gmap string json)
    : bool * t * env :=
  let m := mk (sensors m) (updates ∪ config m) (is_running m)
              (collection_thread m) (data_callback m) in
  let e := save_config m e in
  if bool_decide (is_Some (updates !! "update_frequency")) && is_running m
  then
    let '(m, e) := stop_collection m e in
    let '(m, e) := start_collection m e in
    (true, m, e)
  else (true, m, e).

Definition set_data_callback (callback : list Reading.t -> bool) (m : t) : t :=
  mk (sensors m) (config m) (is_running m) (collection_thread m)
     (Some callback).

(** [for sensor in self.sensors.values(): if sensor.is_active: ...] *)
Fixpoint read_sensors (sensors : list (string * BaseSensor.t))
    (clock : Clock.t string)
    : list Reading.t * list (string * BaseSensor.t) * Clock.t string :=
  match sensors with
  | [] => ([], [], clock)
  | (sensor_id, sensor) :: rest =>
      if BaseSensor.is_active sensor then
        let '(reading, sensor, clock) :=
          BaseSensor.read_with_metadata sensor clock in
        let '(readings, rest, clock) := read_sensors rest clock in
        (reading :: readings, (sensor_id, sensor) :: rest, clock)
      else
        let '(readings, rest, clock) := read_sensors rest clock in
        (readings, (sensor_id, sensor) :: rest, clock)
  end.

Definition read_all_sensors (m : t) (e : env) : list Reading.t * t * env :=
  let '(readings, sensors, clock) := read_sensors (sensors m) (clock e) in
  (readings,
   mk sensors (config m) (is_running m) (collection_thread m)
      (data_callback m),
   mk_env clock (config_file e) (disk_writable e) (sleep_accepts e)
          (threads e) (delivered e)).

(** The [try] block of one iteration of [_collection_loop].  A missing
    configuration key raises [KeyError] at the first reading; that and an
    exception of the callback are caught and printed. *)
Definition collect_once (m : t) (e : env) : t * env :=
  let '(readings, m, e) := read_all_sensors m e in
  match readings with
  | [] => (m, e)
  | _ :: _ =>
      match config m !! "device_id", config m !! "customer_id",
            config m !! "location" with
      | Some d, Some c, Some l =>
          let readings := Reading.with_device d c l <$> readings in
          match data_callback m with
          | Some callback =>
              (m, mk_env (clock e) (config_file e) (disk_writable e)
                         (sleep_accepts e) (threads e)
                         (delivered e ++ [(readings, callback readings)]))
          | None => (m, e)
          end
      | _, _, _ => (m, e)
      end
  end.

(** [time.sleep(self.config['update_frequency'])] stands outside the [try]
    block. *)
Definition sleep (m : t) (e : env) : bool :=
  match config m !! "update_frequency" with
  | Some interval => sleep_accepts e interval
  | None => false
  end.

(** How a run of the loop ends within the iterations observed. *)
Inductive loop_end :=
| Stopped
| Crashed
| StillRunning.

(** [while self.is_running], for at most [fuel] iterations. *)
Fixpoint _collection_loop (fuel : nat) (m : t) (e : env)
    : loop_end * t * env :=
  match fuel with
  | O => (StillRunning, m, e)
  | S fuel' =>
      if is_running m then
        let '(m, e) := collect_once m e in
        if sleep m e then _collection_loop fuel' m e
        else (Crashed, m, e)
      else (Stopped, m, e)
  end.

(** [self.sensors.get(sensor_id)] *)
Fixpoint get_sensor (sensors : list (string * BaseSensor.t))
    (sensor_id : string) : option BaseSensor.t :=
  match sensors with
  | [] => None
  | (key, sensor) :: rest =>
      if String.eqb key sensor_id then Some sensor
      else get_sensor rest sensor_id
  end.

(** [self.sensors[sensor_id] = sensor] on a key the dictionary has: the
    entry is replaced in place. *)
Fixpoint set_sensor (sensors : list (string * BaseSensor.t))
    (sensor_id : string) (sensor : BaseSensor.t)
    : list (string * BaseSensor.t) :=
  match sensors with
  | [] => []
  | (key, old) :: rest =>
      if String.eqb key sensor_id then (key, sensor) :: rest
      else (key, old) :: set_sensor rest sensor_id sensor
  end.

Definition get_sensor_status (m : t) (sensor_id : string)
    : option BaseSensor.status :=
  BaseSensor.get_status <$> get_sensor (sensors m) sensor_id.

Definition get_all_sensor_status (m : t) : list BaseSensor.status :=
  (fun x => BaseSensor.get_status x.2) <$> sensors m.

(** [read_sensor]: the sensor object is updated where it sits in the
    dictionary. *)
Definition read_sensor (m : t) (e : env) (sensor_id : string)
    : option Reading.t * t * env :=
  match get_sensor (sensors m) sensor_id with
  | Some sensor =>
      if BaseSensor.is_active sensor then
        let '(reading, sensor, clock) :=
          BaseSensor.read_with_metadata sensor (clock e) in
        (Some reading,
         mk (set_sensor (sensors m) sensor_id sensor) (config m)
            (is_running m) (collection_thread m) (data_callback m),
         mk_env clock (config_file e) (disk_writable e) (sleep_accepts e)
                (threads e) (delivered e))
      else (None, m, e)
  | None => (None, m, e)
  end.

(** [shutdown]: the loop is stopped; [close] does nothing in the sensor
    classes of the repository. *)
Definition shutdown (m : t) (e : env) : t * env := stop_collection m e.

End SensorManager.

(** ** sensors/__init__.py, sensors/bmp280.py, sensors/dht22.py *)

Module Sensors.

Inductive sensor_class :=
| BMP280Sensor
| DHT22Sensor.

(** The keys of [SENSOR_TYPES]; [None] is the [ValueError] of
    [get_sensor_class]. *)
Definition get_sensor_class (sensor_type : string) : option sensor_class :=
  if String.eqb sensor_type "BMP280" then Some BMP280Sensor
  else if String.eqb sensor_type "DHT22" then Some DHT22Sensor
  else None.

(** The I2C bus of the board: the device the driver finds at an address,
    given the reference pressure set on it, as the outcomes of its
    successive reads; [None] when [board.I2C()] or the driver raises. *)
Record site := mk_site {
  bmp280 : Z -> json -> option (nat -> BaseSensor.read_outcome)
}.

(** [config.get('address', 0x76)] as the driver and the [:02x] format of
    [initialize] take it: an integer (a boolean is one); anything else
    makes [initialize] raise inside its [try]. *)
Definition address_of (sensor_config : gmap string json) : option Z :=
  match sensor_config !! "address" with
  | None => Some 118%Z
  | Some (JInt address) => Some address
  | Some (JBool b) => Some (Z.b2z b)
  | Some _ => None
  end.

(** [sensor = sensor_class(sensor_id, sensor_config)] followed by
    [sensor.initialize()]: the sensor when [initialize] answers [True],
    [None] when it answers [False].  A DHT22 always initializes, and its
    [read] always raises [NotImplementedError]. *)
Definition create (here : site) (class : sensor_class) (sensor_id : string)
    (sensor_config : gmap string json) : option BaseSensor.t :=
  match class with
  | DHT22Sensor =>
      Some (BaseSensor.mk sensor_id "DHT22"
              (fun _ => BaseSensor.Raises
                          "DHT22 sensor reading not yet implemented")
              0 None None true 0)
  | BMP280Sensor =>
      match address_of sensor_config with
      | None => None
      | Some address =>
          match bmp280 here address
                  (default (JFloat 1013.25)
                           (sensor_config !! "sea_level_pressure")) with
          | None => None
          | Some device =>
              Some (BaseSensor.mk sensor_id "BMP280" device 0 None None true 0)
          end
      end
  end.

End Sensors.

(** ** sensor_manager.py: the set of sensors *)

(** [add_sensor], [remove_sensor] and [initialize_from_config] work on the
    list under the key [sensors] of the configuration.  The manager's
    [config] map keeps a list only as text, so that list is carried beside
    the manager here, and the copy of it in the configuration file beside
    the manager's world. *)
Module SensorSet.

(** An item of [config['sensors']]. *)
Record entry := mk_entry {
  entry_id : string;
  entry_type : string;
  entry_config : gmap string json;
  added_at : string
}.

Record t := mk {
  manager : SensorManager.t;
  (** [config['sensors']], a list of items whenever the key is there;
      [None] when the key is missing *)
  config_sensors : option (list entry)
}.

Record env := mk_env {
  world : SensorManager.env;
  (** the list under [sensors] in the configuration file *)
  saved_sensors : option (list entry);
  site : Sensors.site
}.

Definition set_sensors (sensors : list (string * BaseSensor.t))
    (m : SensorManager.t) : SensorManager.t :=
  SensorManager.mk sensors (SensorManager.config m)
    (SensorManager.is_running m) (SensorManager.collection_thread m)
    (SensorManager.data_callback m).

Definition set_clock (clock : Clock.t string) (w : SensorManager.env)
    : SensorManager.env :=
  SensorManager.mk_env clock (SensorManager.config_file w)
    (SensorManager.disk_writable w) (SensorManager.sleep_accepts w)
    (SensorManager.threads w) (SensorManager.delivered w).

(** [save_config()]: the whole configuration goes to the file. *)
Definition save_config (r : t) (e : env) : env :=
  if SensorManager.disk_writable (world e) then
    mk_env (SensorManager.save_config (manager r) (world e))
           (config_sensors r) (site e)
  else e.

Definition add_sensor (r : t) (e : env) (sensor_id sensor_type : string)
    (sensor_config : gmap string json) : bool * t * env :=
  let sensors := SensorManager.sensors (manager r) in
  match SensorManager.get_sensor sensors sensor_id with
  | Some _ => (false, r, e)
  | None =>
      match Sensors.get_sensor_class sensor_type with
      | None => (false, r, e)
      | Some class =>
          match Sensors.create (site e) class sensor_id sensor_config with
          | None => (false, r, e)
          | Some sensor =>
              let m := set_sensors (sensors ++ [(sensor_id, sensor)])
                                   (manager r) in
              match config_sensors r with
              | None => (false, mk m None, e)
              | Some entries =>
                  let '(now, clock) := Clock.now (SensorManager.clock (world e)) in
                  let r := mk m (Some (entries
                                       ++ [mk_entry sensor_id sensor_type
                                                    sensor_config now])) in
                  let e := mk_env (set_clock clock (world e))
                                  (saved_sensors e) (site e) in
                  (true, r, save_config r e)
              end
          end
      end
  end.

(** The default configuration of [load_config], its empty list of
    sensors apart; the two nested dictionaries are kept as text. *)
Definition default_config : gmap string json :=
  {[ "device_id" := JStr "rpi_001";
     "customer_id" := JStr "customer_001";
     "location" := JStr "unknown";
     "update_frequency" := JInt 60;
     "cloud" := JStructured
       "{'enabled': False, 'project_id': '', 'topic_name': 'sensor-data-raw', 'credentials_file': ''}";
     "thresholds" := JStructured
       "{'temperature': 0.5, 'pressure': 2.0, 'humidity': 2.0, 'altitude': 5.0}" ]}.

(** [load_config()]: the configuration and its list of sensors.
    [readable] tells whether [open] and [json.load] succeed on a file that
    exists, giving the object the world holds for it; otherwise, and when
    there is no file, the default configuration is returned after
    [save_config(default_config)]. *)
Definition load_config (readable : bool) (e : env)
    : gmap string json * option (list entry) * env :=
  let defaults :=
    (default_config, Some [],
     save_config (mk (SensorManager.mk [] default_config false None None)
                     (Some [])) e) in
  match SensorManager.config_file (world e) with
  | Some config => if readable then (config, saved_sensors e, e) else defaults
  | None => defaults
  end.

Definition __init__ (readable : bool) (e : env) : t * env :=
  let '(config, entries, e) := load_config readable e in
  (mk (SensorManager.mk [] config false None None) entries, e).

(** [del self.sensors[sensor_id]] *)
Definition del_sensor (sensors : list (string * BaseSensor.t))
    (sensor_id : string) : list (string * BaseSensor.t) :=
  List.filter (fun x => negb (String.eqb x.1 sensor_id)) sensors.

Definition remove_sensor (r : t) (e : env) (sensor_id : string)
    : bool * t * env :=
  let sensors := SensorManager.sensors (manager r) in
  match SensorManager.get_sensor sensors sensor_id with
  | None => (false, r, e)
  | Some _ =>
      let m := set_sensors (del_sensor sensors sensor_id) (manager r) in
      match config_sensors r with
      | None => (false, mk m None, e)
      | Some entries =>
          let r := mk m (Some (List.filter
                                 (fun s => negb (String.eqb (entry_id s) sensor_id))
                                 entries)) in
          (true, r, save_config r e)
      end
  end.

(** How a run of [initialize_from_config] ends. *)
Inductive run :=
| Returned (r : t) (e : env)
| Raised
| Unfinished.

(** The [for sensor_config in self.config['sensors']] loop: the iterator
    walks the list object by index, and [add_sensor] appends to that same
    object, so entries added during the walk are visited too. *)
Fixpoint initialize_loop (fuel index : nat) (r : t) (e : env) : run :=
  match fuel with
  | O => Unfinished
  | S fuel' =>
      match config_sensors r with
      | None => Unfinished
      | Some entries =>
          match entries !! index with
          | None => Returned r e
          | Some sensor_config =>
              let '(_, r, e) :=
                add_sensor r e (entry_id sensor_config)
                           (entry_type sensor_config)
                           (entry_config sensor_config) in
              initialize_loop fuel' (S index) r e
          end
      end
  end.

(** [initialize_from_config]: a missing [sensors] key raises [KeyError]
    to the caller; the fuel given to the loop is twice the length of the
    list plus one. *)
Definition initialize_from_config (r : t) (e : env) : run :=
  match config_sensors r with
  | None => Raised
  | Some entries => initialize_loop (2 * length entries + 1) 0 r e
  end.

(** Adding the sensor of one entry, and of each entry of a list in
    turn. *)
Definition add_entry (re : t * env) (sensor_config : entry) : t * env :=
  let '(_, r, e) :=
    add_sensor re.1 re.2 (entry_id sensor_config) (entry_type sensor_config)
               (entry_config sensor_config) in
  (r, e).

Definition add_entries (entries : list entry) (r : t) (e : env) : t * env :=
  fold_left add_entry entries (r, e).

(** The ids the manager has sensors for, in order. *)
Definition sensor_ids (r : t) : list string :=
  (SensorManager.sensors (manager r)).*1.

(** Every sensor of the dictionary sits under a key of its own, and that
    key is its [sensor_id]. *)
Definition well_keyed (r : t) : Prop :=
  NoDup (sensor_ids r) /\
  Forall (fun x => BaseSensor.sensor_id x.2 = x.1)
         (SensorManager.sensors (manager r)).

(** The configuration file holds the configuration of the manager. *)
Definition mirrored (r : t) (e : env) : Prop :=
  SensorManager.config_file (world e)
  = Some (SensorManager.config (manager r)) /\
  saved_sensors e = config_sensors r.

(** Every sensor of the dictionary has an item in [config['sensors']]. *)
Definition listed (r : t) : Prop :=
  forall entries, config_sensors r = Some entries ->
  forall sensor_id, sensor_id ∈ sensor_ids r ->
  sensor_id ∈ entry_id <$> entries.

End SensorSet.

(** * Concrete states used by the examples *)

(** A publisher whose only snapshot is [{temperature: 20.0}] for sensor
    [bmp280_1], and a reading of that sensor with one metric. *)
Definition snapshot_20 : CloudPublisher.t :=
  CloudPublisher.mk true 10 5
     (Some (CloudPublisher.PublisherClient false)) []
     {[ "bmp280_1" := {[ "temperature" := 20.0%float ]} ]} 0 0 0%float [].

Definition reading_of (sensor_id status metric : string) (value : float)
    : Reading.t :=
  Reading.mk sensor_id "BMP280" "2024-01-01T00:00:00" {[ metric := value ]}
             status None None None None None.

(** Three accepted readings of one sensor, oldest first. *)
Definition r1 : Reading.t := reading_of "bmp280_1" "ok" "temperature" 20.0%float.
Definition r2 : Reading.t := reading_of "bmp280_1" "ok" "temperature" 21.0%float.
Definition r3 : Reading.t := reading_of "bmp280_1" "ok" "temperature" 22.0%float.

(** An enabled publisher with the given batch size and queue, and nothing
    else yet. *)
Definition queued (batch_size : Z) (queue : list Reading.t) : CloudPublisher.t :=
  CloudPublisher.mk true batch_size 5
     (Some (CloudPublisher.PublisherClient false)) queue ∅ 0 0 100%float [].

(** A world with a working disk, the given offline buffer file and the
    given Pub/Sub behaviour; the clock reads 101, 102, 103, ... *)
Definition world (file : option CloudPublisher.file_content)
    (pubsub : list CloudPublisher.message -> CloudPublisher.message ->
              option CloudPublisher.future) : CloudPublisher.env :=
  CloudPublisher.mk_env
    (Clock.mk (fun n => (101 + of_uint63 (Uint63.of_Z (Z.of_nat n)))%float) 0)
    true false true pubsub [] file true.

Definition pubsub_down : list CloudPublisher.message ->
    CloudPublisher.message -> option CloudPublisher.future :=
  fun _ _ => None.

Definition pubsub_up : list CloudPublisher.message ->
    CloudPublisher.message -> option CloudPublisher.future :=
  fun _ _ => Some (CloudPublisher.Future true).

(** One tick's worth of readings: a first reading of [bmp280_1], a failed
    read of [dht22_1], a second reading of [bmp280_1] that moved by 0.1
    only, and a first reading of [bme280_1]. *)
Definition tick_readings : list Reading.t :=
  [ r1;
    Reading.mk "dht22_1" "DHT22" "2024-01-01T00:00:00" ∅ "error"
               (Some "checksum") (Some 1) None None None;
    reading_of "bmp280_1" "ok" "temperature" 20.1%float;
    reading_of "bme280_1" "ok" "humidity" 55.0%float ].

Definition default_thresholds : gmap string float :=
  {[ "temperature" := 0.5%float; "pressure" := 2.0%float;
     "humidity" := 2.0%float; "altitude" := 5.0%float ]}.

(** A BMP280 whose reads raise from the second call on, with seven errors
    on its counter already. *)
Definition flaky_sensor : BaseSensor.t :=
  BaseSensor.mk "bmp280_1" "BMP280"
    (fun n => match n with
              | O => BaseSensor.Values {[ "temperature" := 20.0%float ]}
              | S _ => BaseSensor.Raises "I2C timeout"
              end)
    0 None None true 7.

(** A DHT22 that always answers, and one that is switched off. *)
Definition steady_sensor : BaseSensor.t :=
  BaseSensor.mk "dht22_1" "DHT22"
    (fun _ => BaseSensor.Values {[ "humidity" := 55.0%float ]})
    0 None None true 0.

Definition idle_sensor : BaseSensor.t :=
  BaseSensor.mk "bme280_1" "BME280"
    (fun _ => BaseSensor.Raises "not wired") 0 None None false 0.

Definition wall_clock : Clock.t string := Clock.mk (fun _ => "2024-01-01T00:00:00") 0.

Definition device_config : gmap string json :=
  {[ "device_id" := JStr "rpi_001"; "customer_id" := JStr "customer_001";
     "location" := JStr "unknown"; "update_frequency" := JInt 60 ]}.

(** A running manager with the three sensors above and a callback, and
    its world: thread 0 runs the loop. *)
Definition running_manager : SensorManager.t :=
  SensorManager.mk
    [("bmp280_1", flaky_sensor); ("bme280_1", idle_sensor);
     ("dht22_1", steady_sensor)]
    device_config true (Some 0) (Some (fun _ => true)).

Definition manager_world : SensorManager.env :=
  SensorManager.mk_env wall_clock (Some device_config) true
    (fun v => match v with JInt n => (0 <=? n)%Z | _ => false end)
    [SensorManager.Start 0] [].

(** As [queued], with the last batch sent at time 90: by the first clock
    reading of [world] the five seconds of [max_batch_wait] are over. *)
Definition overdue (batch_size : Z) (queue : list Reading.t) : CloudPublisher.t :=
  CloudPublisher.mk true batch_size 5
     (Some (CloudPublisher.PublisherClient false)) queue ∅ 0 0 90%float [].


(** A board with one BMP280 wired at address 0x76, which reads 20
    degrees; nothing answers at any other address. *)
Definition bench : Sensors.site :=
  Sensors.mk_site
    (fun address _ =>
       if (address =? 118)%Z then
         Some (fun _ => BaseSensor.Values {[ "temperature" := 20.0%float ]})
       else None).

(** A manager as the constructor leaves it, with the given items in
    [config['sensors']], and its world: the same list is on disk. *)
Definition configured (entries : option (list SensorSet.entry)) : SensorSet.t :=
  SensorSet.mk (SensorManager.mk [] device_config false None None) entries.

Definition bench_world (entries : option (list SensorSet.entry)) : SensorSet.env :=
  SensorSet.mk_env
    (SensorManager.mk_env wall_clock (Some device_config) true
       (fun v => match v with JInt n => (0 <=? n)%Z | _ => false end) [] [])
    entries bench.

(** The items of a configuration file: a BMP280 at the default address, a
    DHT22, a BMP280 at an address where nothing answers and a sensor of a
    type the registry does not have. *)
Definition bench_entries : list SensorSet.entry :=
  [ SensorSet.mk_entry "bmp280_1" "BMP280" ∅ "2023-12-31T00:00:00";
    SensorSet.mk_entry "dht22_1" "DHT22" {[ "pin" := JInt 4 ]}
                       "2023-12-31T00:00:00";
    SensorSet.mk_entry "bmp280_2" "BMP280" {[ "address" := JInt 119 ]}
                       "2023-12-31T00:00:00";
    SensorSet.mk_entry "bme280_1" "BME280" ∅ "2023-12-31T00:00:00" ].

(** * Properties *)

(** ** The downsample filter *)

Section DownsampleFilter.

Import CloudPublisher.

(** The loop finds a metric exactly when some item has a counterpart in the
    snapshot that lies further away than its threshold. *)
Lemma any_metric_moved_true items (last_reading thresholds : gmap string float) :
  any_metric_moved items last_reading thresholds = true <->
  exists metric value last_value,
    (metric, value) ∈ items /\
    last_reading !! metric = Some last_value /\
    (default 0 (thresholds !! metric) <? abs (value - last_value))%float = true.
Proof.
  induction items as [|[metric value] rest IH]; simpl.
  - split; [discriminate|]. intros (?&?&?&H&_). by apply elem_of_nil in H.
  - destruct (last_reading !! metric) as [last_value|] eqn:Hlast.
    + destruct (default 0 (thresholds !! metric) <? abs (value - last_value))%float
        eqn:Hcmp.
      * split; [|done]. intros _. exists metric, value, last_value.
        repeat split; [left|done..].
      * rewrite IH. split.
        -- intros (m&v&l&Hin&Hl&Hc). exists m, v, l. repeat split; [by right|done..].
        -- intros (m&v&l&Hin&Hl&Hc). apply elem_of_cons in Hin as [Heq|Hin].
           ++ inversion Heq; subst. rewrite Hlast in Hl. inversion Hl; subst.
              congruence.
           ++ by exists m, v, l.
    + rewrite IH. split.
      * intros (m&v&l&Hin&Hl&Hc). exists m, v, l. repeat split; [by right|done..].
      * intros (m&v&l&Hin&Hl&Hc). apply elem_of_cons in Hin as [Heq|Hin].
        -- inversion Heq; subst. congruence.
        -- by exists m, v, l.
Qed.

(** C1: a reading whose sensor has no last-accepted snapshot passes the
    filter whatever the thresholds are; with a snapshot it passes exactly
    when some metric present in both the reading and the snapshot differs
    from its old value by strictly more than its threshold (0 when no
    threshold is configured).  With snapshot 20.0 and threshold 0.5, the
    values 20.4 and 20.5 are suppressed and 20.6 passes; a zero delta does
    not pass an unconfigured threshold, and a metric that only the new
    reading has does not pass. *)
Theorem should_publish_downsample :
  (forall p reading thresholds,
     last_published_values p !! Reading.sensor_id reading = None ->
     should_publish p reading thresholds = true) /\
  (forall p reading thresholds last_reading,
     last_published_values p !! Reading.sensor_id reading = Some last_reading ->
     (should_publish p reading thresholds = true <->
      exists metric value last_value,
        Reading.readings reading !! metric = Some value /\
        last_reading !! metric = Some last_value /\
        (default 0 (thresholds !! metric) <? abs (value - last_value))%float
          = true)) /\
  (let thresholds : gmap string float := {[ "temperature" := 0.5%float ]} in
   let new := reading_of "bmp280_1" "ok" "temperature" in
   should_publish snapshot_20 (new 20.4%float) thresholds = false /\
   should_publish snapshot_20 (new 20.5%float) thresholds = false /\
   should_publish snapshot_20 (new 20.6%float) thresholds = true /\
   should_publish snapshot_20 (new 20.0%float) ∅ = false /\
   should_publish snapshot_20 (new 20.000001%float) ∅ = true /\
   should_publish snapshot_20
     (reading_of "bmp280_1" "ok" "humidity" 55.0%float) thresholds = false /\
   should_publish snapshot_20
     (reading_of "dht22_1" "ok" "humidity" 55.0%float) thresholds = true).
Proof.
  split; [|split].
  - intros p reading thresholds Hcold. unfold should_publish. by rewrite Hcold.
  - intros p reading thresholds last_reading Hsnap. unfold should_publish.
    rewrite Hsnap, any_metric_moved_true. split.
    + intros (metric&value&last_value&Hin&Hlast&Hcmp).
      exists metric, value, last_value.
      by rewrite <- elem_of_map_to_list.
    + intros (metric&value&last_value&Hnew&Hlast&Hcmp).
      exists metric, value, last_value.
      by rewrite elem_of_map_to_list.
  - vm_compute. repeat split.
Qed.

Lemma should_publish_downsample_witness :
  should_publish snapshot_20
    (reading_of "dht22_1" "ok" "humidity" 55.0%float) default_thresholds
  = true /\
  (should_publish snapshot_20
     (reading_of "bmp280_1" "ok" "temperature" 20.6%float) default_thresholds
   = true <->
   exists metric value last_value,
     ({[ "temperature" := 20.6%float ]} : gmap string float) !! metric
       = Some value /\
     ({[ "temperature" := 20.0%float ]} : gmap string float) !! metric
       = Some last_value /\
     (default 0 (default_thresholds !! metric) <? abs (value - last_value))%float
       = true).
Proof.
  destruct should_publish_downsample as (Hcold&Hwarm&_).
  split.
  - apply Hcold. reflexivity.
  - apply (Hwarm snapshot_20
             (reading_of "bmp280_1" "ok" "temperature" 20.6%float)
             default_thresholds {[ "temperature" := 20.0%float ]}).
    reflexivity.
Defined.

End DownsampleFilter.

(** ** The batcher *)

Section Batcher.

Import CloudPublisher.

Lemma pop_snoc {A} (l : list A) (x : A) : pop (l ++ [x]) = Some (x, l).
Proof.
  induction l as [|a l IH]; simpl; [done|]. by rewrite IH.
Qed.

(** Popping from the end turns the batch around. *)
Lemma move_to_offline_all (messages offline_buffer : list message) :
  move_to_offline (length messages) messages offline_buffer
  = ([], offline_buffer ++ rev messages).
Proof.
  revert offline_buffer.
  induction messages as [|x l IH] using rev_ind; intros offline_buffer; simpl.
  - by rewrite app_nil_r.
  - rewrite length_app, Nat.add_1_r. simpl.
    rewrite pop_snoc, IH, rev_unit, <- app_assoc. done.
Qed.

(** The preparation loop takes the oldest readings, as many as the batch
    still has room for. *)
Lemma prepare_messages_take batch_size (queue : list Reading.t)
    (messages : list message) :
  let room := Z.to_nat (batch_size - Z.of_nat (length messages)) in
  prepare_messages batch_size queue messages
  = (messages ++ (Bytes <$> take room queue), drop room queue).
Proof.
  revert messages.
  induction queue as [|reading rest IH]; intros messages room; simpl.
  - subst room. rewrite take_nil, drop_nil. simpl. by rewrite app_nil_r.
  - destruct (Z.ltb_spec (Z.of_nat (length messages)) batch_size) as [Hlt|Hge].
    + rewrite IH, length_app. simpl.
      replace room
        with (S (Z.to_nat (batch_size - Z.of_nat (length messages + 1))))
        by (subst room; lia).
      simpl. by rewrite <- app_assoc.
    + replace room with 0 by (subst room; lia).
      simpl. by rewrite app_nil_r.
Qed.

Lemma batch_take (p : t) :
  batch p = Bytes <$> take (Z.to_nat (batch_size p)) (message_queue p).
Proof.
  unfold batch. rewrite prepare_messages_take. simpl.
  by rewrite Z.sub_0_r.
Qed.

Lemma wait_results_app (futures more : list future) :
  wait_results (futures ++ more) = wait_results futures && wait_results more.
Proof.
  induction futures as [|[[]] rest IH]; simpl; done.
Qed.

(** The publish loop only ever grows the log of calls, by a prefix of the
    messages: no message is handed to the client twice. *)
Lemma publish_messages_sent client (messages : list message) :
  forall e futures,
  exists k,
    k <= length messages /\
    snd (publish_messages client e messages futures)
    = set_sent (sent e ++ take k messages) e.
Proof.
  induction messages as [|m rest IH]; intros e futures; simpl.
  - exists 0. split; [lia|]. destruct e; simpl. by rewrite app_nil_r.
  - destruct client as [c|]; simpl.
    + destruct (pubsub e (sent e) m) as [future|]; simpl.
      * destruct (IH (set_sent (sent e ++ [m]) e) (futures ++ [future]))
          as (k&Hk&Heq).
        exists (S k). split; [lia|]. rewrite Heq. simpl.
        by rewrite <- app_assoc.
      * exists 1. split; [lia|]. done.
    + exists 0. split; [lia|]. destruct e; simpl. by rewrite app_nil_r.
Qed.

(** Once a future that will raise is among those collected, the attempt
    cannot succeed any more. *)
Lemma publish_messages_doomed client (messages : list message) :
  forall e futures,
  wait_results futures = false ->
  match fst (publish_messages client e messages futures) with
  | Some futures' => wait_results futures' = false
  | None => True
  end.
Proof.
  induction messages as [|m rest IH]; intros e futures Hfail; simpl; [done|].
  destruct client as [c|]; simpl; [|done].
  destruct (pubsub e (sent e) m) as [future|]; simpl; [|done].
  apply IH. rewrite wait_results_app, Hfail. done.
Qed.

(** When no call of the client goes through, an attempt with at least one
    message fails. *)
Lemma attempt_fails_when_every_call_fails (p : t) (e : env) :
  message_queue p <> [] ->
  (0 < batch_size p)%Z ->
  (forall log m, pubsub e log m <> Some (Future true)) ->
  attempt_ok p e = false.
Proof.
  intros Hqueue Hsize Hfail. unfold attempt_ok. rewrite batch_take.
  destruct (message_queue p) as [|reading rest]; [done|].
  replace (Z.to_nat (batch_size p)) with (S (Z.to_nat (batch_size p - 1)))
    by lia.
  simpl. destruct (publisher p) as [c|]; simpl; [|done].
  destruct (pubsub e (sent e) (Bytes reading)) as [[[]]|] eqn:Hcall; simpl.
  - by apply Hfail in Hcall.
  - match goal with
    | |- context [publish_messages ?c ?e' ?ms ?fs] =>
        pose proof (publish_messages_doomed c ms e' fs eq_refl) as Hdoomed
    end.
    destruct (fst _) as [fs|]; done.
  - done.
Qed.

(** When every call goes through, every message is handed to the client
    once, in order. *)
Lemma publish_messages_all_ok c (messages : list message) :
  forall e futures,
  (forall log m, pubsub e log m = Some (Future true)) ->
  wait_results futures = true ->
  exists futures',
    publish_messages (Some c) e messages futures
    = (Some futures', set_sent (sent e ++ messages) e) /\
    wait_results futures' = true.
Proof.
  induction messages as [|m rest IH]; intros e futures Hok Hfutures; simpl.
  - exists futures. split; [|done]. destruct e; simpl. by rewrite app_nil_r.
  - rewrite Hok.
    destruct (IH (set_sent (sent e ++ [m]) e) (futures ++ [Future true]))
      as (futures'&Heq&Hwait).
    + intros log m'. apply Hok.
    + rewrite wait_results_app, Hfutures. done.
    + exists futures'. split; [|done]. rewrite Heq. simpl.
      by rewrite <- app_assoc.
Qed.

Lemma sent_save_offline_buffer (p : t) (e : env) :
  sent (_save_offline_buffer p e) = sent e.
Proof.
  unfold _save_offline_buffer.
  destruct (disk_writable e); [|done].
  destruct (json_dump (offline_buffer p)); done.
Qed.

(** What a failed flush attempt does to the publisher and to the log of
    client calls. *)
Lemma publish_batch_failed (p : t) (e : env) :
  message_queue p <> [] ->
  attempt_ok p e = false ->
  offline_buffer (fst (_publish_batch p e))
    = offline_buffer p ++ rev (batch p) /\
  error_count (fst (_publish_batch p e)) = error_count p + 1 /\
  publish_count (fst (_publish_batch p e)) = publish_count p /\
  last_batch_time (fst (_publish_batch p e)) = last_batch_time p /\
  message_queue (fst (_publish_batch p e))
    = drop (Z.to_nat (batch_size p)) (message_queue p) /\
  exists k, k <= length (batch p) /\
    sent (snd (_publish_batch p e)) = sent e ++ take k (batch p).
Proof.
  intros Hqueue Hfail. unfold _publish_batch.
  unfold attempt_ok in Hfail.
  destruct (message_queue p) as [|reading rest] eqn:Hq; [done|].
  assert (Hdrop : snd (prepare_messages (batch_size p) (message_queue p) [])
                  = drop (Z.to_nat (batch_size p)) (message_queue p)).
  { rewrite prepare_messages_take. simpl. by rewrite Z.sub_0_r. }
  unfold batch in *. rewrite Hq in *.
  destruct (prepare_messages (batch_size p) (reading :: rest) [])
    as [messages queue] eqn:Hprep.
  simpl in Hfail, Hdrop. subst queue.
  destruct (publish_messages_sent (publisher p) messages e [])
    as (k&Hk&Hsent).
  destruct (publish_messages (publisher p) e messages [])
    as [futures e1] eqn:Hpub.
  simpl in Hfail, Hsent. simpl. rewrite Hpub, Hfail.
  rewrite move_to_offline_all. simpl.
  repeat split; try done.
  exists k. split; [done|]. by rewrite sent_save_offline_buffer, Hsent.
Qed.

(** C10: when a flush attempt fails, its messages reach the offline buffer
    in the reverse of their queue order: the buffer afterwards is the old
    buffer followed by the batch (the oldest [batch_size] readings of the
    queue, encoded) turned around, newest first. *)
Theorem failed_flush_reverses_batch (p : t) (e : env) :
  message_queue p <> [] ->
  attempt_ok p e = false ->
  offline_buffer (fst (_publish_batch p e))
  = offline_buffer p
    ++ rev (Bytes <$> take (Z.to_nat (batch_size p)) (message_queue p)).
Proof.
  intros Hqueue Hfail.
  destruct (publish_batch_failed p e Hqueue Hfail) as (Hbuf&_).
  by rewrite Hbuf, batch_take.
Qed.

Lemma failed_flush_reverses_batch_witness :
  offline_buffer
    (fst (_publish_batch (queued 10 [r1; r2; r3]) (world None pubsub_down)))
  = [Bytes r3; Bytes r2; Bytes r1].
Proof.
  apply (failed_flush_reverses_batch
           (queued 10 [r1; r2; r3]) (world None pubsub_down)).
  - discriminate.
  - reflexivity.
Defined.

(** C2: when every transport call of a flush attempt fails, all messages
    of the attempt are in the offline buffer afterwards (the buffer is the
    old one plus the batch, up to order), [publish_count] is unchanged,
    [error_count] has grown by exactly 1, and nothing is retried: every
    message was handed to the client at most once (the calls made are a
    prefix of the batch) and the batch has left the queue. *)
Theorem failed_flush_buffers_batch (p : t) (e : env) :
  message_queue p <> [] ->
  (0 < batch_size p)%Z ->
  (forall log m, pubsub e log m <> Some (Future true)) ->
  let attempt := Bytes <$> take (Z.to_nat (batch_size p)) (message_queue p) in
  let p' := fst (_publish_batch p e) in
  let e' := snd (_publish_batch p e) in
  offline_buffer p' ≡ₚ offline_buffer p ++ attempt /\
  (forall m, m ∈ attempt -> m ∈ offline_buffer p') /\
  publish_count p' = publish_count p /\
  error_count p' = error_count p + 1 /\
  message_queue p' = drop (Z.to_nat (batch_size p)) (message_queue p) /\
  exists k, k <= length attempt /\ sent e' = sent e ++ take k attempt.
Proof.
  intros Hqueue Hsize Hdown attempt p' e'.
  pose proof (attempt_fails_when_every_call_fails p e Hqueue Hsize Hdown)
    as Hfail.
  destruct (publish_batch_failed p e Hqueue Hfail)
    as (Hbuf&Herr&Hcount&_&Hq&k&Hk&Hsent).
  rewrite batch_take in Hbuf, Hk, Hsent. fold attempt in Hbuf, Hk, Hsent.
  assert (Hperm : offline_buffer p' ≡ₚ offline_buffer p ++ attempt).
  { subst p'. rewrite Hbuf. by rewrite <- Permutation_rev. }
  repeat split; try done.
  - intros m Hm. rewrite Hperm. apply elem_of_app. by right.
  - by exists k.
Qed.

Lemma failed_flush_buffers_batch_witness :
  let p' := fst (_publish_batch (queued 2 [r1; r2; r3]) (world None pubsub_down)) in
  let e' := snd (_publish_batch (queued 2 [r1; r2; r3]) (world None pubsub_down)) in
  offline_buffer p' ≡ₚ [Bytes r1; Bytes r2] /\
  (forall m, m ∈ [Bytes r1; Bytes r2] -> m ∈ offline_buffer p') /\
  publish_count p' = 0 /\
  error_count p' = 1 /\
  message_queue p' = [r3] /\
  exists k, k <= 2 /\ sent e' = take k [Bytes r1; Bytes r2].
Proof.
  apply (failed_flush_buffers_batch
           (queued 2 [r1; r2; r3]) (world None pubsub_down)).
  - discriminate.
  - reflexivity.
  - discriminate.
Defined.

(** What a flush attempt does when every call goes through. *)
Lemma publish_batch_succeeded (p : t) (e : env) c :
  message_queue p <> [] ->
  publisher p = Some c ->
  (forall log m, pubsub e log m = Some (Future true)) ->
  _publish_batch p e
  = (set_last_batch_time (fst (time_time e))
       (set_publish_count (publish_count p + length (batch p))
          (set_message_queue
             (drop (Z.to_nat (batch_size p)) (message_queue p)) p)),
     snd (time_time (set_sent (sent e ++ batch p) e))).
Proof.
  intros Hqueue Hclient Hup. rewrite batch_take. unfold _publish_batch.
  destruct (message_queue p) as [|reading rest] eqn:Hq; [done|].
  rewrite prepare_messages_take. simpl length. rewrite Z.sub_0_r.
  cbv zeta. simpl publisher. rewrite Hclient.
  destruct (publish_messages_all_ok c
              (Bytes <$> take (Z.to_nat (batch_size p)) (reading :: rest))
              e [] Hup eq_refl) as (futures&Hpub&Hwait).
  simpl app in *. rewrite Hpub, Hwait. reflexivity.
Qed.

Lemma set_last_published_values_id (p : t) :
  set_last_published_values (last_published_values p) p = p.
Proof. by destruct p. Qed.

(** The filter loop of [publish] touches nothing but the snapshots. *)
Lemma filter_readings_frame filter thresholds (readings : list Reading.t) :
  forall acc p,
  exists snapshots,
    snd (fold_left (filter_reading filter thresholds) readings (acc, p))
    = set_last_published_values snapshots p.
Proof.
  induction readings as [|reading rest IH]; intros acc p; simpl.
  - exists (last_published_values p). by rewrite set_last_published_values_id.
  - destruct (String.eqb (Reading.status reading) "ok"); [|apply IH].
    destruct (filter p reading thresholds); [|apply IH].
    edestruct IH as (snapshots&Heq). rewrite Heq. by eexists.
Qed.

(** C6: [flush] runs one flush attempt, and an attempt takes at most
    [batch_size] readings off the queue.  With a transport that succeeds
    on every call, whatever the queue held beyond the first [batch_size]
    readings is still queued after [flush] (and after [shutdown]), neither
    sent nor buffered: a queue of three with [batch_size] 2 keeps its
    newest reading. *)
Theorem flush_leaves_excess_queued :
  (forall p e c,
     publisher p = Some c ->
     (forall log m, pubsub e log m = Some (Future true)) ->
     message_queue (fst (flush p e))
       = drop (Z.to_nat (batch_size p)) (message_queue p) /\
     sent (snd (flush p e))
       = sent e ++ (Bytes <$> take (Z.to_nat (batch_size p)) (message_queue p)) /\
     offline_buffer (fst (flush p e)) = offline_buffer p) /\
  (let p := queued 2 [r1; r2; r3] in
   let e := world None pubsub_up in
   message_queue (fst (flush p e)) = [r3] /\
   sent (snd (flush p e)) = [Bytes r1; Bytes r2] /\
   publish_count (fst (flush p e)) = 2 /\
   error_count (fst (flush p e)) = 0 /\
   offline_buffer (fst (flush p e)) = [] /\
   shutdown p e = flush p e).
Proof.
  split.
  - intros p e c Hclient Hup. unfold flush.
    destruct (message_queue p) as [|reading rest] eqn:Hq.
    + simpl. rewrite Hq, drop_nil, take_nil. simpl. by rewrite app_nil_r.
    + rewrite (publish_batch_succeeded p e c); [|by rewrite Hq|done..].
      rewrite batch_take, Hq. done.
  - vm_compute. repeat split.
Qed.

Lemma json_dump_bytes (items : list message) reading :
  Bytes reading ∈ items -> json_dump items = None.
Proof.
  induction items as [|[r|str] rest IH]; intros Hin; simpl.
  - by apply elem_of_nil in Hin.
  - done.
  - apply elem_of_cons in Hin as [Heq|Hin]; [done|]. by rewrite IH.
Qed.

(** After a failed flush attempt that had a message, the write to the
    file is cut short by [TypeError]. *)
Lemma failed_flush_leaves_file_malformed (p : t) (e : env) :
  message_queue p <> [] ->
  (0 < batch_size p)%Z ->
  attempt_ok p e = false ->
  disk_writable e = true ->
  offline_buffer_file (snd (_publish_batch p e)) = Some Malformed.
Proof.
  intros Hqueue Hsize Hfail Hdisk. unfold attempt_ok in Hfail.
  rewrite batch_take in Hfail. unfold _publish_batch.
  destruct (message_queue p) as [|reading rest] eqn:Hq; [done|].
  rewrite prepare_messages_take. simpl length. rewrite Z.sub_0_r.
  cbv zeta. simpl publisher. simpl app in *.
  destruct (publish_messages_sent (publisher p)
              (Bytes <$> take (Z.to_nat (batch_size p)) (reading :: rest))
              e []) as (k&_&Hsent).
  destruct (publish_messages _ _ _ _) as [futures e1].
  simpl in Hfail, Hsent. rewrite Hfail, move_to_offline_all. subst e1.
  unfold _save_offline_buffer. simpl. rewrite Hdisk.
  rewrite (json_dump_bytes _ reading); [done|].
  apply elem_of_app. right.
  rewrite list_elem_of_In, <- in_rev, <- list_elem_of_In.
  replace (Z.to_nat (batch_size p)) with (S (Z.to_nat (batch_size p - 1)))
    by lia.
  simpl. by left.
Qed.

(** C5: the constructor leaves the in-memory offline buffer empty whatever
    [offline_buffer.json] holds; [_load_offline_buffer], which would read
    the file, is not called by it.  The write after a failed flush does
    not serialize the buffer either: its items are [bytes] objects, on
    which [json.dump] raises after the file was truncated. *)
Theorem offline_buffer_file_not_loaded :
  (forall cfg e, offline_buffer (fst (__init__ cfg e)) = []) /\
  (let cfg := mk_config (Some true) (Some "proj") None None None None in
   let e := world (Some (JsonArray ["m1"; "m2"])) pubsub_up in
   offline_buffer (fst (__init__ cfg e)) = [] /\
   offline_buffer_file (snd (__init__ cfg e)) = Some (JsonArray ["m1"; "m2"]) /\
   offline_buffer (_load_offline_buffer (fst (__init__ cfg e)) (snd (__init__ cfg e)))
     = [Str "m1"; Str "m2"]) /\
  (forall p e,
     message_queue p <> [] ->
     (0 < batch_size p)%Z ->
     attempt_ok p e = false ->
     disk_writable e = true ->
     offline_buffer_file (snd (_publish_batch p e)) = Some Malformed) /\
  (let p := queued 10 [r1; r2] in
   let e := world None pubsub_down in
   offline_buffer (fst (_publish_batch p e)) = [Bytes r2; Bytes r1] /\
   offline_buffer_file (snd (_publish_batch p e)) = Some Malformed).
Proof.
  split; [|split; [|split; [apply failed_flush_leaves_file_malformed|]]].
  - intros cfg e. unfold __init__, time_time, Clock.now. cbv beta iota zeta.
    simpl enabled. destruct (default false (cfg_enabled cfg)); [|done].
    unfold _initialize_publisher.
    destruct (negb _); [done|]. destruct (client_constructs _); done.
  - vm_compute. repeat split.
  - vm_compute. repeat split.
Qed.

(** Whatever the outcome, a flush attempt hands the client a prefix of its
    batch and takes the batch off the queue. *)
Lemma publish_batch_effects (p : t) (e : env) :
  message_queue (fst (_publish_batch p e))
    = drop (Z.to_nat (batch_size p)) (message_queue p) /\
  exists k, sent (snd (_publish_batch p e)) = sent e ++ take k (batch p).
Proof.
  unfold _publish_batch, batch.
  destruct (message_queue p) as [|reading rest] eqn:Hq.
  - simpl. rewrite drop_nil. split; [done|]. exists 0. by rewrite app_nil_r.
  - rewrite prepare_messages_take. simpl length. rewrite Z.sub_0_r.
    cbv zeta. simpl fst. simpl publisher.
    destruct (publish_messages_sent (publisher p)
                (Bytes <$> take (Z.to_nat (batch_size p)) (reading :: rest))
                e []) as (k&_&Hsent).
    simpl app in *.
    destruct (publish_messages _ _ _ _) as [futures e1].
    simpl in Hsent. subst e1.
    destruct (match futures with Some fs => wait_results fs | None => false end).
    + split; [done|]. by exists k.
    + split; [by destruct (move_to_offline _ _ _)|]. exists k.
      rewrite move_to_offline_all. simpl snd.
      by rewrite sent_save_offline_buffer.
Qed.

(** The filter loop of [publish] adds readings with status [ok] only. *)
Lemma filter_readings_ok filter thresholds (readings : list Reading.t) :
  forall acc p r,
  r ∈ fst (fold_left (filter_reading filter thresholds) readings (acc, p)) ->
  r ∈ acc \/ Reading.status r = "ok".
Proof.
  induction readings as [|reading rest IH]; intros acc p r; simpl.
  - by left.
  - destruct (String.eqb_spec (Reading.status reading) "ok") as [Hok|Hne];
      [|apply IH].
    destruct (filter p reading thresholds); [|apply IH].
    intros Hin. apply IH in Hin as [Hin|Hin]; [|by right].
    apply elem_of_app in Hin as [Hin|Hin]; [by left|].
    apply list_elem_of_singleton in Hin. subst. by right.
Qed.

(** The filter is consulted on readings with status [ok] only: two filters
    that agree on those drive the loop alike. *)
Lemma filter_readings_ext filter filter' thresholds (readings : list Reading.t) :
  (forall p r, Reading.status r = "ok" ->
     filter' p r thresholds = filter p r thresholds) ->
  forall acc,
  fold_left (filter_reading filter' thresholds) readings acc
  = fold_left (filter_reading filter thresholds) readings acc.
Proof.
  intros Hagree.
  induction readings as [|reading rest IH]; intros [filtered p]; simpl; [done|].
  destruct (String.eqb_spec (Reading.status reading) "ok") as [Hok|Hne];
    [|apply IH].
  rewrite Hagree by done. apply IH.
Qed.

Lemma elem_of_batch_prefix (r : Reading.t) k n (queue : list Reading.t) :
  Bytes r ∈ take k (Bytes <$> take n queue) -> r ∈ queue.
Proof.
  intros Hin. apply subseteq_take in Hin.
  apply list_elem_of_fmap in Hin as (r'&Heq&Hin). inversion Heq; subst.
  by apply subseteq_take in Hin.
Qed.

(** What one [publish] call leaves in the queue or hands to the client was
    queued before or has status [ok]. *)
Lemma publish_with_members filter (p : t) (e : env)
    (readings : list Reading.t) (thresholds : gmap string float) r :
  (r ∈ message_queue (fst (publish_with filter p e readings thresholds)) ->
   r ∈ message_queue p \/ Reading.status r = "ok") /\
  (Bytes r ∈ sent (snd (publish_with filter p e readings thresholds)) ->
   Bytes r ∈ sent e \/ r ∈ message_queue p \/ Reading.status r = "ok").
Proof.
  unfold publish_with. destruct (enabled p); simpl negb; cbv iota;
    [|by auto].
  pose proof (filter_readings_ok filter thresholds readings [] p r) as Hok.
  destruct (filter_readings_frame filter thresholds readings [] p)
    as (snapshots&Hframe).
  destruct (fold_left (filter_reading filter thresholds) readings ([], p))
    as [filtered p1].
  simpl in Hok, Hframe. subst p1.
  assert (Hnew : r ∈ message_queue p ++ filtered ->
                 r ∈ message_queue p \/ Reading.status r = "ok").
  { intros Hin. apply elem_of_app in Hin as [Hin|Hin]; [by left|].
    apply Hok in Hin as [Hin|Hin]; [|by right]. by apply elem_of_nil in Hin. }
  destruct filtered as [|reading rest] eqn:Hfiltered; [by auto|].
  rewrite <- Hfiltered in *. clear Hfiltered.
  unfold time_time, Clock.now. cbv beta iota zeta.
  destruct (_ || _).
  - match goal with
    | |- context [_publish_batch ?p2 ?e1] =>
        destruct (publish_batch_effects p2 e1) as (Hq&k&Hsent)
    end.
    rewrite Hq, Hsent, batch_take. simpl. split.
    + intros Hin. apply subseteq_drop in Hin. by apply Hnew.
    + intros Hin. apply elem_of_app in Hin as [Hin|Hin]; [by left|].
      right. apply Hnew. by apply elem_of_batch_prefix in Hin.
  - simpl. by auto.
Qed.

Lemma filter_reading_not_ok filter thresholds acc (reading : Reading.t) :
  Reading.status reading <> "ok" ->
  filter_reading filter thresholds acc reading = acc.
Proof.
  intros Hne. destruct acc as [filtered p]. simpl.
  by destruct (String.eqb_spec (Reading.status reading) "ok").
Qed.

(** C4: a reading with status [error] in the list handed to [publish] is
    skipped by the filter loop whatever the filter would say (the
    accumulated readings and the publisher, its snapshots included, are
    left as they are); [publish] behaves as if the reading were not in the
    list, and alike under every filter that agrees with [should_publish]
    on the readings with status [ok], so the filter is not consulted on
    it; the reading is neither in the queue nor among the messages handed
    to the client afterwards. *)
Theorem error_reading_is_dropped (p : t) (e : env)
    (before after : list Reading.t) (reading : Reading.t)
    (thresholds : gmap string float) :
  Reading.status reading = "error" ->
  reading ∉ message_queue p ->
  Bytes reading ∉ sent e ->
  let readings := before ++ reading :: after in
  (forall filter acc, filter_reading filter thresholds acc reading = acc) /\
  (forall filter filtered q,
     last_published_values
       (snd (filter_reading filter thresholds (filtered, q) reading))
       !! Reading.sensor_id reading
     = last_published_values q !! Reading.sensor_id reading) /\
  (forall filter,
     (forall q r, Reading.status r = "ok" ->
        filter q r thresholds = should_publish q r thresholds) ->
     publish_with filter p e readings thresholds
     = publish p e readings thresholds) /\
  publish p e readings thresholds = publish p e (before ++ after) thresholds /\
  (reading ∉ message_queue (fst (publish p e readings thresholds))) /\
  (Bytes reading ∉ sent (snd (publish p e readings thresholds))).
Proof.
  intros Herror Hqueue Hsent readings.
  assert (Hne : Reading.status reading <> "ok") by (rewrite Herror; discriminate).
  pose proof (publish_with_members should_publish p e readings thresholds
                reading) as [Hq Hs].
  repeat split.
  - intros filter acc. by apply filter_reading_not_ok.
  - intros filter filtered q. by rewrite filter_reading_not_ok.
  - intros filter Hagree. unfold publish, publish_with.
    by rewrite (filter_readings_ext should_publish filter).
  - unfold publish, publish_with, readings.
    rewrite !fold_left_app. simpl fold_left.
    by rewrite filter_reading_not_ok.
  - intros Hin. apply Hq in Hin as [Hin|Hin]; done.
  - intros Hin. apply Hs in Hin as [Hin|[Hin|Hin]]; done.
Qed.

Lemma error_reading_is_dropped_witness :
  let reading :=
    Reading.mk "dht22_1" "DHT22" "2024-01-01T00:00:00" ∅ "error"
               (Some "checksum") (Some 1) None None None in
  let thresholds := default_thresholds in
  let p := queued 2 [] in
  let e := world None pubsub_up in
  (forall filter acc, filter_reading filter thresholds acc reading = acc) /\
  (forall filter filtered q,
     last_published_values
       (snd (filter_reading filter thresholds (filtered, q) reading))
       !! "dht22_1"
     = last_published_values q !! "dht22_1") /\
  (forall filter,
     (forall q r, Reading.status r = "ok" ->
        filter q r thresholds = should_publish q r thresholds) ->
     publish_with filter p e tick_readings thresholds
     = publish p e tick_readings thresholds) /\
  publish p e tick_readings thresholds
  = publish p e
      [r1; reading_of "bmp280_1" "ok" "temperature" 20.1%float;
       reading_of "bme280_1" "ok" "humidity" 55.0%float] thresholds /\
  (reading ∉ message_queue (fst (publish p e tick_readings thresholds))) /\
  (Bytes reading ∉ sent (snd (publish p e tick_readings thresholds))).
Proof.
  apply (error_reading_is_dropped (queued 2 []) (world None pubsub_up)
           [r1]
           [reading_of "bmp280_1" "ok" "temperature" 20.1%float;
            reading_of "bme280_1" "ok" "humidity" 55.0%float]).
  - reflexivity.
  - simpl. apply not_elem_of_nil.
  - simpl. apply not_elem_of_nil.
Defined.

(** *** Records enqueued over several calls *)

Lemma filter_readings_acc filter thresholds (readings : list Reading.t) :
  forall acc p,
  fold_left (filter_reading filter thresholds) readings (acc, p)
  = (acc ++ (fold_left (filter_reading filter thresholds) readings ([], p)).1,
     (fold_left (filter_reading filter thresholds) readings ([], p)).2).
Proof.
  induction readings as [|reading rest IH]; intros acc p; simpl.
  - by rewrite app_nil_r.
  - destruct (String.eqb (Reading.status reading) "ok"); [|apply IH].
    destruct (filter p reading thresholds); [|apply IH].
    rewrite (IH (acc ++ [reading])), (IH [reading]). simpl.
    by rewrite <- app_assoc.
Qed.












End Batcher.

(** ** Sensors and the collection loop *)

Section Sensors.

Import BaseSensor.

Lemma read_with_metadata_hardware (s : t) clock :
  hardware (read_with_metadata s clock).1.2 = hardware s /\
  reads (read_with_metadata s clock).1.2 = S (reads s) /\
  is_active (read_with_metadata s clock).1.2 = is_active s /\
  sensor_id (read_with_metadata s clock).1.2 = sensor_id s.
Proof.
  unfold read_with_metadata, read, Clock.now. simpl.
  destruct (hardware s (reads s)); done.
Qed.

(** [k] failing reads in a row add [k] to the counter, and the readings
    report the running count. *)
Lemma poll_failures k :
  forall (s : t) clock,
  (forall j, j < k -> exists detail, hardware s (reads s + j) = Raises detail) ->
  error_count (poll k s clock).1.2 = error_count s + k /\
  map Reading.error_count (poll k s clock).1.1
  = map (fun j => Some (error_count s + S j)) (seq 0 k).
Proof.
  induction k as [|k IH]; intros s clock Hfail; simpl.
  - split; [lia|done].
  - destruct (Hfail 0 ltac:(lia)) as (detail&Hfirst).
    rewrite Nat.add_0_r in Hfirst.
    pose proof (read_with_metadata_hardware s clock) as (Hhw&Hreads&_).
    assert (Hcount : error_count (read_with_metadata s clock).1.2
                     = error_count s + 1
                     /\ Reading.error_count (read_with_metadata s clock).1.1
                        = Some (error_count s + 1)).
    { unfold read_with_metadata, read, Clock.now. simpl. by rewrite Hfirst. }
    destruct Hcount as [Hcount Hreport].
    destruct (read_with_metadata s clock) as [[reading s1] clock1].
    simpl in *.
    destruct (IH s1 clock1) as (IHcount&IHreport).
    { intros j Hj. rewrite Hhw, Hreads.
      destruct (Hfail (S j) ltac:(lia)) as (d&Hd). exists d.
      by rewrite <- Hd, Nat.add_succ_r. }
    destruct (poll k s1 clock1) as [[readings s2] clock2]. simpl in *.
    split; [lia|].
    rewrite Hreport, IHreport, Hcount. f_equal.
    rewrite <- seq_shift, map_map.
    apply map_ext. intros j. f_equal. lia.
Qed.

(** C9: a successful read sets the sensor's [error_count] to 0, whatever
    it was; after it, [k] failing reads in a row leave the counter at [k],
    the readings of those failures report 1, 2, ..., [k], and
    [get_status] reports [k]: the counter counts the failures since the
    last successful read, not those of the sensor's lifetime. *)
Theorem successful_read_resets_error_count (s : t) (clock : Clock.t string)
    (readings : gmap string float) (k : nat) :
  hardware s (reads s) = Values readings ->
  (forall j, j < k ->
     exists detail, hardware s (S (reads s) + j) = Raises detail) ->
  error_count (read_with_metadata s clock).1.2 = 0 /\
  Reading.status (read_with_metadata s clock).1.1 = "ok" /\
  error_count (poll (S k) s clock).1.2 = k /\
  status_error_count (get_status (poll (S k) s clock).1.2) = k /\
  map Reading.error_count (poll (S k) s clock).1.1
  = None :: map (fun j => Some (S j)) (seq 0 k).
Proof.
  intros Hok Hfail.
  pose proof (read_with_metadata_hardware s clock) as (Hhw&Hreads&_).
  assert (Hfirst : error_count (read_with_metadata s clock).1.2 = 0
                   /\ Reading.status (read_with_metadata s clock).1.1 = "ok"
                   /\ Reading.error_count (read_with_metadata s clock).1.1
                      = None).
  { unfold read_with_metadata, read, Clock.now. simpl. by rewrite Hok. }
  destruct Hfirst as (Hzero&Hstatus&Hreport).
  simpl poll.
  destruct (read_with_metadata s clock) as [[reading s1] clock1].
  simpl in *.
  destruct (poll_failures k s1 clock1) as (Hcount&Hreports).
  { intros j Hj. rewrite Hhw, Hreads. by apply Hfail. }
  destruct (poll k s1 clock1) as [[more s2] clock2]. simpl in *.
  rewrite Hzero in Hcount, Hreports. simpl in Hcount.
  repeat split; try done.
  by rewrite Hreport, Hreports.
Qed.

Lemma successful_read_resets_error_count_witness :
  error_count (read_with_metadata flaky_sensor wall_clock).1.2 = 0 /\
  Reading.status (read_with_metadata flaky_sensor wall_clock).1.1 = "ok" /\
  error_count (poll 4 flaky_sensor wall_clock).1.2 = 3 /\
  status_error_count (get_status (poll 4 flaky_sensor wall_clock).1.2) = 3 /\
  map Reading.error_count (poll 4 flaky_sensor wall_clock).1.1
  = [None; Some 1; Some 2; Some 3].
Proof.
  apply (successful_read_resets_error_count flaky_sensor wall_clock
           {[ "temperature" := 20.0%float ]} 3).
  - reflexivity.
  - intros j _. exists "I2C timeout". reflexivity.
Defined.

(** What a failing read turns into. *)
Lemma read_with_metadata_raises (s : t) clock detail :
  hardware s (reads s) = Raises detail ->
  Reading.status (read_with_metadata s clock).1.1 = "error" /\
  Reading.error (read_with_metadata s clock).1.1 = Some detail /\
  Reading.error_count (read_with_metadata s clock).1.1
    = Some (error_count s + 1) /\
  Reading.readings (read_with_metadata s clock).1.1 = ∅ /\
  Reading.sensor_id (read_with_metadata s clock).1.1 = sensor_id s /\
  error_count (read_with_metadata s clock).1.2 = error_count s + 1 /\
  last_reading (read_with_metadata s clock).1.2 = last_reading s.
Proof.
  intros Hraise. unfold read_with_metadata, read, Clock.now. simpl.
  by rewrite Hraise.
Qed.

Lemma read_with_metadata_status (s : t) clock :
  Reading.sensor_id (read_with_metadata s clock).1.1 = sensor_id s /\
  Reading.status (read_with_metadata s clock).1.1
  = match hardware s (reads s) with
    | Values _ => "ok"
    | Raises _ => "error"
    end.
Proof.
  unfold read_with_metadata, read, Clock.now. simpl.
  by destruct (hardware s (reads s)).
Qed.

(** One pass over the sensors yields one reading per active sensor, in
    order, whatever the reads of the sensors before it did. *)
Lemma read_sensors_readings (sensors : list (string * t)) :
  forall clock,
  map (fun r => (Reading.sensor_id r, Reading.status r))
      (SensorManager.read_sensors sensors clock).1.1
  = map next_status (List.filter is_active (map snd sensors)).
Proof.
  induction sensors as [|[id s] rest IH]; intros clock; simpl; [done|].
  destruct (is_active s) eqn:Hactive.
  - pose proof (read_with_metadata_status s clock) as (Hid&Hstatus).
    destruct (read_with_metadata s clock) as [[reading s1] clock1].
    specialize (IH clock1).
    destruct (SensorManager.read_sensors rest clock1) as [[readings rest'] clock2].
    simpl in *. by rewrite Hid, Hstatus, IH.
  - specialize (IH clock).
    destruct (SensorManager.read_sensors rest clock) as [[readings rest'] clock1].
    done.
Qed.

Lemma read_sensors_usage (sensors : list (string * t)) :
  forall clock,
  usage (SensorManager.read_sensors sensors clock).1.2
  = map (used 1) (usage sensors).
Proof.
  induction sensors as [|[id s] rest IH]; intros clock; simpl; [done|].
  destruct (is_active s) eqn:Hactive.
  - pose proof (read_with_metadata_hardware s clock) as (_&Hreads&Hact&_).
    destruct (read_with_metadata s clock) as [[reading s1] clock1].
    specialize (IH clock1).
    destruct (SensorManager.read_sensors rest clock1) as [[readings rest'] clock2].
    simpl in *. rewrite Hreads, Hact, Hactive, IH. unfold used. simpl.
    by rewrite Nat.add_1_r.
  - specialize (IH clock).
    destruct (SensorManager.read_sensors rest clock) as [[readings rest'] clock1].
    simpl in *. by rewrite IH, Hactive.
Qed.

Lemma collect_once_frame (m : SensorManager.t) (e : SensorManager.env) :
  SensorManager.config (SensorManager.collect_once m e).1
    = SensorManager.config m /\
  SensorManager.is_running (SensorManager.collect_once m e).1
    = SensorManager.is_running m /\
  SensorManager.sleep_accepts (SensorManager.collect_once m e).2
    = SensorManager.sleep_accepts e /\
  SensorManager.threads (SensorManager.collect_once m e).2
    = SensorManager.threads e /\
  SensorManager.sensors (SensorManager.collect_once m e).1
    = (SensorManager.read_sensors (SensorManager.sensors m)
         (SensorManager.clock e)).1.2.
Proof.
  unfold SensorManager.collect_once, SensorManager.read_all_sensors.
  destruct (SensorManager.read_sensors _ _) as [[readings sensors'] clock'].
  destruct readings as [|reading rest]; [done|]. simpl.
  destruct (SensorManager.config m !! "device_id"); [|done].
  destruct (SensorManager.config m !! "customer_id"); [|done].
  destruct (SensorManager.config m !! "location"); [|done].
  destruct (SensorManager.data_callback m); done.
Qed.

Lemma used_0 u : used 0 u = u.
Proof. destruct u as [[] r]; unfold used; simpl; [|done]. by rewrite Nat.add_0_r. Qed.

Lemma used_S n u : used n (used 1 u) = used (S n) u.
Proof. destruct u as [[] r]; unfold used; simpl; [|done]. f_equal. lia. Qed.

(** While the flag is set and [time.sleep] accepts the interval, the loop
    goes through every iteration it is given and reads every active
    sensor once per iteration, whatever the reads do. *)
Lemma collection_loop_runs n :
  forall (m : SensorManager.t) (e : SensorManager.env),
  SensorManager.is_running m = true ->
  SensorManager.sleep m e = true ->
  (SensorManager._collection_loop n m e).1.1 = SensorManager.StillRunning /\
  SensorManager.is_running (SensorManager._collection_loop n m e).1.2 = true /\
  usage (SensorManager.sensors (SensorManager._collection_loop n m e).1.2)
  = map (used n) (usage (SensorManager.sensors m)).
Proof.
  induction n as [|n IH]; intros m e Hrun Hsleep; simpl.
  - repeat split; [done|]. rewrite <- (map_id (usage _)) at 1.
    apply map_ext. intros u. by rewrite used_0.
  - rewrite Hrun.
    pose proof (collect_once_frame m e) as (Hcfg&Hflag&Hacc&_&Hsensors).
    destruct (SensorManager.collect_once m e) as [m1 e1]. simpl in *.
    assert (Hsleep1 : SensorManager.sleep m1 e1 = true).
    { unfold SensorManager.sleep in *. by rewrite Hcfg, Hacc. }
    rewrite Hsleep1.
    destruct (IH m1 e1) as (Hend&Hrun'&Husage); [congruence|done|].
    repeat split; [done..|].
    rewrite Husage, Hsensors, read_sensors_usage, map_map.
    apply map_ext. intros u. apply used_S.
Qed.

(** C8: a read that raises yields a reading with status [error], the
    exception's text as its [error], the incremented counter as its
    [error_count] and no metrics, and adds one to the sensor's
    [error_count]; a pass over the sensors still yields one reading per
    active sensor, in order, each [ok] or [error] as its own read went;
    and the collection loop, while its flag is set and the sleep interval
    is accepted, goes on for every iteration it is given and reads every
    active sensor once in each, whatever the reads do.  A sensor that
    fails from its second read on is reported [ok], [error] (1), [error]
    (2) in three ticks, next to the other sensor's [ok]. *)
Theorem failed_read_becomes_error_reading :
  (forall (s : t) clock detail,
     hardware s (reads s) = Raises detail ->
     Reading.status (read_with_metadata s clock).1.1 = "error" /\
     Reading.error (read_with_metadata s clock).1.1 = Some detail /\
     Reading.error_count (read_with_metadata s clock).1.1
       = Some (error_count s + 1) /\
     Reading.readings (read_with_metadata s clock).1.1 = ∅ /\
     Reading.sensor_id (read_with_metadata s clock).1.1 = sensor_id s /\
     error_count (read_with_metadata s clock).1.2 = error_count s + 1) /\
  (forall (sensors : list (string * t)) clock,
     map (fun r => (Reading.sensor_id r, Reading.status r))
         (SensorManager.read_sensors sensors clock).1.1
     = map next_status (List.filter is_active (map snd sensors))) /\
  (forall n (m : SensorManager.t) (e : SensorManager.env),
     SensorManager.is_running m = true ->
     SensorManager.sleep m e = true ->
     (SensorManager._collection_loop n m e).1.1 = SensorManager.StillRunning /\
     SensorManager.is_running (SensorManager._collection_loop n m e).1.2 = true /\
     usage (SensorManager.sensors (SensorManager._collection_loop n m e).1.2)
     = map (used n) (usage (SensorManager.sensors m))) /\
  (let run := SensorManager._collection_loop 3 running_manager manager_world in
   run.1.1 = SensorManager.StillRunning /\
   map (fun batch =>
          map (fun r => (Reading.sensor_id r, Reading.status r,
                         Reading.error_count r)) batch.1)
       (SensorManager.delivered run.2)
   = [ [("bmp280_1", "ok", None); ("dht22_1", "ok", None)];
       [("bmp280_1", "error", Some 1); ("dht22_1", "ok", None)];
       [("bmp280_1", "error", Some 2); ("dht22_1", "ok", None)] ]).
Proof.
  split; [|split; [|split]].
  - intros s clock detail Hraise.
    destruct (read_with_metadata_raises s clock detail Hraise)
      as (?&?&?&?&?&?&_).
    done.
  - apply read_sensors_readings.
  - intros n m e. apply collection_loop_runs.
  - vm_compute. split; reflexivity.
Qed.

Lemma failed_read_becomes_error_reading_witness :
  (Reading.status (read_with_metadata idle_sensor wall_clock).1.1 = "error" /\
   Reading.error (read_with_metadata idle_sensor wall_clock).1.1
     = Some "not wired" /\
   Reading.error_count (read_with_metadata idle_sensor wall_clock).1.1
     = Some 1 /\
   Reading.readings (read_with_metadata idle_sensor wall_clock).1.1 = ∅ /\
   Reading.sensor_id (read_with_metadata idle_sensor wall_clock).1.1
     = "bme280_1" /\
   error_count (read_with_metadata idle_sensor wall_clock).1.2 = 1) /\
  ((SensorManager._collection_loop 3 running_manager manager_world).1.1
     = SensorManager.StillRunning /\
   SensorManager.is_running
     (SensorManager._collection_loop 3 running_manager manager_world).1.2
     = true /\
   usage (SensorManager.sensors
            (SensorManager._collection_loop 3 running_manager manager_world).1.2)
   = [(true, 3); (false, 0); (true, 3)]).
Proof.
  destruct failed_read_becomes_error_reading as (Hread&_&Hloop&_).
  split.
  - apply (Hread idle_sensor wall_clock "not wired"). reflexivity.
  - apply (Hloop 3 running_manager manager_world); reflexivity.
Defined.

End Sensors.

(** ** Configuration updates *)

Section Configuration.

Import SensorManager.

(** C7, as the code has it: [update_config] merges the update into the
    configuration, saves it and answers [True]; when the update has the
    key [update_frequency] and the loop is running it stops the loop once
    (the flag is cleared and the thread joined) and then starts it once (a
    new thread, the flag set again) by itself; otherwise it leaves the
    flag, the thread and the log of thread operations as they are. *)
Theorem update_config_restarts_collection (m : t) (e : env)
    (updates : gmap string json) :
  (update_config m e updates).1.1 = true /\
  config (update_config m e updates).1.2 = updates ∪ config m /\
  (is_Some (updates !! "update_frequency") ->
   is_running m = true ->
   threads (update_config m e updates).2
     = threads e ++ stop_events m ++ [Start (started (threads e ++ stop_events m))] /\
   is_running (update_config m e updates).1.2 = true /\
   collection_thread (update_config m e updates).1.2
     = Some (started (threads e ++ stop_events m))) /\
  (updates !! "update_frequency" = None \/ is_running m = false ->
   threads (update_config m e updates).2 = threads e /\
   is_running (update_config m e updates).1.2 = is_running m /\
   collection_thread (update_config m e updates).1.2 = collection_thread m).
Proof.
  assert (Hsave : forall m', threads (save_config m' e) = threads e).
  { intros m'. unfold save_config. by destruct (disk_writable e). }
  unfold update_config, stop_events.
  destruct (bool_decide_reflect (is_Some (updates !! "update_frequency")))
    as [Hkey|Hkey];
    destruct (is_running m) eqn:Hrun; simpl.
  - unfold stop_collection, start_collection. simpl.
    destruct (collection_thread m) as [thread|]; simpl; rewrite Hsave;
      (split; [done|]); (split; [done|]); (split; [intros _ _|intros Hor]).
    + by rewrite <- app_assoc.
    + destruct Hor as [Hnone|]; [|done]. rewrite Hnone in Hkey. by destruct Hkey.
    + by rewrite !app_nil_r.
    + destruct Hor as [Hnone|]; [|done]. rewrite Hnone in Hkey. by destruct Hkey.
  - rewrite Hsave. (split; [done|]); (split; [done|]); split; [done|done].
  - rewrite Hsave. (split; [done|]); (split; [done|]); split; [|done].
    intros Hkey'. by destruct Hkey.
  - rewrite Hsave. (split; [done|]); (split; [done|]); split; [done|done].
Qed.

Lemma update_config_restarts_collection_witness :
  let updates : gmap string json := {[ "update_frequency" := JInt 30 ]} in
  threads (update_config running_manager manager_world updates).2
    = [Start 0; Join 0; Start 1] /\
  is_running (update_config running_manager manager_world updates).1.2 = true /\
  collection_thread (update_config running_manager manager_world updates).1.2
    = Some 1.
Proof.
  destruct (update_config_restarts_collection running_manager manager_world
              {[ "update_frequency" := JInt 30 ]}) as (_&_&Hrestart&_).
  apply Hrestart.
  - exists (JInt 30). reflexivity.
  - reflexivity.
Defined.

(** C7, as stated, fails: on a running manager an update of
    [update_frequency] makes [update_config] join the loop's thread and
    start a new one, without the caller stopping or starting anything. *)
Lemma update_config_restarts_by_itself :
  let updates : gmap string json := {[ "update_frequency" := JInt 30 ]} in
  threads manager_world = [Start 0] /\
  threads (update_config running_manager manager_world updates).2
    = [Start 0; Join 0; Start 1] /\
  collection_thread (update_config running_manager manager_world updates).1.2
    = Some 1 /\
  ~ (forall m e u, threads (update_config m e u).2 = threads e).
Proof.
  repeat split; try (vm_compute; reflexivity).
  intros Hclaim.
  specialize (Hclaim running_manager manager_world
                ({[ "update_frequency" := JInt 30 ]})).
  vm_compute in Hclaim. discriminate.
Qed.

End Configuration.

(** * Further properties *)

(** ** The publisher's accounting *)

Section Accounting.

Import CloudPublisher.

Lemma publish_messages_frame client (messages : list message) :
  forall e futures,
  clock (publish_messages client e messages futures).2 = clock e /\
  pubsub (publish_messages client e messages futures).2 = pubsub e /\
  disk_writable (publish_messages client e messages futures).2
    = disk_writable e /\
  offline_buffer_file (publish_messages client e messages futures).2
    = offline_buffer_file e.
Proof.
  intros e futures.
  destruct (publish_messages_sent client messages e futures) as (k&_&Heq).
  by rewrite Heq.
Qed.

(** The two ways a flush attempt on a non-empty queue can end. *)
Lemma publish_batch_cases (p : t) (e : env) :
  message_queue p <> [] ->
  let p' := (_publish_batch p e).1 in
  message_queue p' = drop (Z.to_nat (batch_size p)) (message_queue p) /\
  last_published_values p' = last_published_values p /\
  enabled p' = enabled p /\ batch_size p' = batch_size p /\
  max_batch_wait p' = max_batch_wait p /\ publisher p' = publisher p /\
  if attempt_ok p e then
    publish_count p' = publish_count p + length (batch p) /\
    error_count p' = error_count p /\
    offline_buffer p' = offline_buffer p /\
    last_batch_time p' = Clock.source (clock e) (Clock.calls (clock e))
  else
    publish_count p' = publish_count p /\
    error_count p' = error_count p + 1 /\
    offline_buffer p' = offline_buffer p ++ rev (batch p) /\
    last_batch_time p' = last_batch_time p.
Proof.
  intros Hqueue p'. destruct (attempt_ok p e) eqn:Hok.
  - subst p'. unfold attempt_ok in Hok. rewrite batch_take in *.
    unfold _publish_batch.
    destruct (message_queue p) as [|reading rest] eqn:Hq; [done|].
    rewrite prepare_messages_take. simpl length. rewrite Z.sub_0_r.
    cbv zeta. simpl publisher. simpl app in *.
    pose proof (publish_messages_frame (publisher p)
                  (Bytes <$> take (Z.to_nat (batch_size p)) (reading :: rest))
                  e []) as (Hclock&_).
    destruct (publish_messages _ _ _ _) as [futures e1].
    simpl in Hok, Hclock. rewrite Hok. unfold time_time, Clock.now.
    simpl. by rewrite Hclock.
  - destruct (publish_batch_failed p e Hqueue Hok)
      as (Hbuf&Herr&Hcount&Htime&Hq&_).
    assert (Hframe : last_published_values p' = last_published_values p /\
                     enabled p' = enabled p /\ batch_size p' = batch_size p /\
                     max_batch_wait p' = max_batch_wait p /\
                     publisher p' = publisher p).
    { subst p'. unfold _publish_batch.
      destruct (message_queue p) as [|reading rest]; [done|].
      destruct (prepare_messages _ _ _) as [messages queue].
      destruct (publish_messages _ _ _ _) as [futures e1].
      destruct (match futures with Some fs => wait_results fs | None => false end);
        [done|].
      by destruct (move_to_offline _ _ _). }
    by destruct Hframe as (?&?&?&?&?).
Qed.

(** What one [publish] call of an enabled publisher comes to: nothing
    but the filter loop when no reading is accepted; otherwise the
    accepted readings are queued, the clock is read, and a flush attempt
    follows or not. *)
Lemma publish_shape (p : t) (e : env) readings thresholds :
  enabled p = true ->
  let a := accepted p readings thresholds in
  let p1 := set_last_published_values
              (last_published_values
                 (fold_left (filter_reading should_publish thresholds)
                            readings ([], p)).2) p in
  let p2 := set_message_queue (message_queue p ++ a) p1 in
  let now := Clock.source (clock e) (Clock.calls (clock e)) in
  let e1 := set_clock (Clock.mk (Clock.source (clock e))
                                (S (Clock.calls (clock e)))) e in
  let due := (batch_size p <=? Z.of_nat (length (message_queue p ++ a)))%Z
             || (max_batch_wait p <=? now - last_batch_time p)%float in
  (a = [] /\ publish p e readings thresholds = (p1, e)) \/
  (a <> [] /\ due = true /\
   publish p e readings thresholds = _publish_batch p2 e1) \/
  (a <> [] /\ due = false /\ publish p e readings thresholds = (p2, e1)).
Proof.
  intros Henabled a p1 p2 now e1 due.
  subst a p1 p2 now e1 due. unfold publish, publish_with, accepted.
  rewrite Henabled. simpl negb. cbv iota.
  destruct (filter_readings_frame should_publish thresholds readings [] p)
    as (snapshots&Hframe).
  destruct (fold_left (filter_reading should_publish thresholds)
              readings ([], p)) as [filtered q].
  simpl in Hframe |- *. subst q. simpl.
  destruct filtered as [|reading rest]; [by left|]. right.
  unfold time_time, Clock.now. cbv beta iota zeta. simpl.
  destruct (_ || _); [left|right]; done.
Qed.

Lemma accounted_publish_batch (p : t) (e : env) :
  accounted (get_stats (_publish_batch p e).1) = accounted (get_stats p).
Proof.
  destruct (message_queue p) as [|reading rest] eqn:Hq.
  - unfold _publish_batch. by rewrite Hq.
  - pose proof (publish_batch_cases p e) as Hcases.
    rewrite Hq in Hcases. specialize (Hcases ltac:(done)).
    destruct Hcases as (Hqueue&_&_&_&_&_&Hcases).
    unfold accounted, get_stats. simpl. rewrite Hqueue, Hq.
    assert (Hlen : length (batch p)
                   + length (drop (Z.to_nat (batch_size p)) (reading :: rest))
                   = length (reading :: rest)).
    { rewrite batch_take, Hq, length_fmap, <- length_app.
      by rewrite take_drop. }
    destruct (attempt_ok p e).
    + destruct Hcases as (Hcount&_&Hbuf&_). rewrite Hcount, Hbuf. lia.
    + destruct Hcases as (Hcount&_&Hbuf&_).
      rewrite Hcount, Hbuf, length_app, length_rev. lia.
Qed.

(** X1: whatever the transport does, a flush attempt, [flush] and
    [shutdown] keep the number of readings the statistics account for
    ([publish_count + queue_size + offline_buffer_size]), and [publish]
    raises it by exactly the number of readings it accepts (by nothing
    when the publisher is disabled): no accepted reading leaves the
    counters, and none is counted twice. *)
Theorem publisher_accounts_for_every_reading (p : t) (e : env)
    (readings : list Reading.t) (thresholds : gmap string float) :
  accounted (get_stats (_publish_batch p e).1) = accounted (get_stats p) /\
  accounted (get_stats (flush p e).1) = accounted (get_stats p) /\
  accounted (get_stats (shutdown p e).1) = accounted (get_stats p) /\
  accounted (get_stats (publish p e readings thresholds).1)
  = accounted (get_stats p)
    + (if enabled p then length (accepted p readings thresholds) else 0).
Proof.
  assert (Hflush : accounted (get_stats (flush p e).1)
                   = accounted (get_stats p)).
  { unfold flush. destruct (message_queue p) eqn:Hq; [done|].
    apply accounted_publish_batch. }
  split; [apply accounted_publish_batch|]. split; [done|]. split.
  - unfold shutdown. by destruct (enabled p).
  - destruct (enabled p) eqn:Henabled.
    + destruct (publish_shape p e readings thresholds Henabled)
        as [[Hnone Hpub]|[(Hsome&_&Hpub)|(Hsome&_&Hpub)]];
        rewrite Hpub; clear Hpub.
      * rewrite Hnone. simpl. unfold accounted, get_stats. simpl. lia.
      * rewrite accounted_publish_batch. unfold accounted, get_stats.
        simpl. rewrite length_app. lia.
      * unfold accounted, get_stats. simpl. rewrite length_app. lia.
    + unfold publish, publish_with. rewrite Henabled. simpl. lia.
Qed.

Lemma append_only_publish_batch (p : t) (e : env) :
  offline_buffer p `prefix_of` offline_buffer (_publish_batch p e).1 /\
  publish_count p <= publish_count (_publish_batch p e).1 /\
  error_count p <= error_count (_publish_batch p e).1 <= error_count p + 1 /\
  exists k,
    sent (_publish_batch p e).2
    = sent e ++ take k (Bytes <$> message_queue p).
Proof.
  destruct (publish_batch_effects p e) as (_&k&Hsent).
  assert (Hk : exists k', sent (_publish_batch p e).2
                          = sent e ++ take k' (Bytes <$> message_queue p)).
  { exists (k `min` Z.to_nat (batch_size p)).
    by rewrite Hsent, batch_take, fmap_take, take_take. }
  destruct (message_queue p) as [|reading rest] eqn:Hq.
  - unfold _publish_batch in *. rewrite Hq in *. simpl.
    repeat split; [done|lia..|done].
  - pose proof (publish_batch_cases p e) as Hcases.
    rewrite Hq in Hcases. specialize (Hcases ltac:(done)).
    destruct Hcases as (_&_&_&_&_&_&Hcases).
    destruct (attempt_ok p e).
    + destruct Hcases as (Hcount&Herr&Hbuf&_). rewrite Hcount, Herr, Hbuf.
      repeat split; [done|lia..|done].
    + destruct Hcases as (Hcount&Herr&Hbuf&_). rewrite Hcount, Herr, Hbuf.
      repeat split; [by apply prefix_app_r|lia..|done].
Qed.

(** X2: [publish] and [flush] only ever append: the offline buffer and
    the log of client calls before the call are prefixes of those after
    it, [publish_count] and [error_count] never go down, [error_count]
    goes up by at most one per call, and what is handed to the client is a
    prefix of the queue followed by the newly accepted readings, in that
    order (first in, first out); an item of the offline buffer is never
    handed to the client. *)
Theorem publisher_only_appends (p : t) (e : env)
    (readings : list Reading.t) (thresholds : gmap string float) :
  (offline_buffer p `prefix_of` offline_buffer (publish p e readings thresholds).1 /\
   sent e `prefix_of` sent (publish p e readings thresholds).2 /\
   publish_count p <= publish_count (publish p e readings thresholds).1 /\
   error_count p <= error_count (publish p e readings thresholds).1
     <= error_count p + 1 /\
   exists k,
     sent (publish p e readings thresholds).2
     = sent e
       ++ take k (Bytes <$> message_queue p ++ accepted p readings thresholds)) /\
  (offline_buffer p `prefix_of` offline_buffer (flush p e).1 /\
   sent e `prefix_of` sent (flush p e).2 /\
   publish_count p <= publish_count (flush p e).1 /\
   error_count p <= error_count (flush p e).1 <= error_count p + 1 /\
   exists k, sent (flush p e).2 = sent e ++ take k (Bytes <$> message_queue p)).
Proof.
  split.
  - assert (Hsame : forall q e0,
              offline_buffer q = offline_buffer p ->
              publish_count q = publish_count p ->
              error_count q = error_count p ->
              sent e0 = sent e ->
              offline_buffer p `prefix_of` offline_buffer q /\
              sent e `prefix_of` sent e0 /\
              publish_count p <= publish_count q /\
              error_count p <= error_count q <= error_count p + 1 /\
              exists k,
                sent e0
                = sent e
                  ++ take k (Bytes <$> message_queue p
                                       ++ accepted p readings thresholds)).
    { intros q e0 -> -> -> ->. repeat split; [done|done|lia..|].
      exists 0. by rewrite take_0, app_nil_r. }
    destruct (enabled p) eqn:Henabled.
    + destruct (publish_shape p e readings thresholds Henabled)
        as [[Hnone Hpub]|[(Hsome&_&Hpub)|(Hsome&_&Hpub)]];
        rewrite Hpub; clear Hpub; [by apply Hsame| |by apply Hsame].
      match goal with
      | |- context [_publish_batch ?p2 ?e1] =>
          destruct (append_only_publish_batch p2 e1)
            as (Hbuf&Hcount&Herr&k&Hsent)
      end.
      simpl in Hbuf, Hcount, Herr, Hsent. rewrite Hsent.
      repeat split; [done|by apply prefix_app_r|lia..|by exists k].
    + unfold publish, publish_with. rewrite Henabled. by apply Hsame.
  - unfold flush. destruct (message_queue p) as [|reading rest] eqn:Hq.
    + simpl. repeat split; [done|done|lia..|].
      exists 0. by rewrite app_nil_r.
    + destruct (append_only_publish_batch p e) as (Hbuf&Hcount&Herr&k&Hsent).
      rewrite Hq in Hsent. rewrite Hsent.
      repeat split; [done|by apply prefix_app_r|lia..|by exists k].
Qed.

(** ** Snapshots *)

Lemma filter_readings_cons thresholds (reading : Reading.t) rest (p : t) :
  fold_left (filter_reading should_publish thresholds) (reading :: rest) ([], p)
  = if String.eqb (Reading.status reading) "ok"
       && should_publish p reading thresholds
    then (reading :: accepted (accept p reading) rest thresholds,
          (fold_left (filter_reading should_publish thresholds) rest
                     ([], accept p reading)).2)
    else fold_left (filter_reading should_publish thresholds) rest ([], p).
Proof.
  simpl. destruct (String.eqb (Reading.status reading) "ok"); [|done].
  destruct (should_publish p reading thresholds); [|done].
  simpl. by rewrite filter_readings_acc.
Qed.

Lemma filter_readings_last thresholds id (readings : list Reading.t) :
  forall p,
  last_published_values
    (fold_left (filter_reading should_publish thresholds) readings ([], p)).2
    !! id
  = match last (filter (fun r => Reading.sensor_id r = id)
                       (accepted p readings thresholds)) with
    | Some r => Some (Reading.readings r)
    | None => last_published_values p !! id
    end.
Proof.
  induction readings as [|reading rest IH]; intros p; [done|].
  unfold accepted. rewrite filter_readings_cons.
  destruct (String.eqb (Reading.status reading) "ok"
            && should_publish p reading thresholds); [|apply IH].
  simpl. rewrite IH. rewrite filter_cons.
  destruct (decide (Reading.sensor_id reading = id)) as [Hid|Hid].
  - destruct (filter _ (accepted (accept p reading) rest thresholds))
      as [|r l] eqn:Hrest.
    + simpl. by rewrite Hid, lookup_insert_eq.
    + rewrite last_cons_cons. destruct (last (r :: l)) eqn:Hlast; [done|].
      by apply last_None in Hlast.
  - destruct (last _); [done|]. simpl. by rewrite lookup_insert_ne.
Qed.

(** X3: after [publish] on an enabled publisher, the snapshot of a sensor
    is the whole metric map of the last reading of that sensor accepted in
    the call (replaced, not merged), and the snapshot it had before when
    none was accepted; this holds whatever the transport then does with
    the readings. *)
Theorem snapshot_is_last_accepted (p : t) (e : env)
    (readings : list Reading.t) (thresholds : gmap string float)
    (sensor_id : string) :
  enabled p = true ->
  last_published_values (publish p e readings thresholds).1 !! sensor_id
  = match last (filter (fun r => Reading.sensor_id r = sensor_id)
                       (accepted p readings thresholds)) with
    | Some r => Some (Reading.readings r)
    | None => last_published_values p !! sensor_id
    end.
Proof.
  intros Henabled.
  rewrite <- filter_readings_last.
  destruct (publish_shape p e readings thresholds Henabled)
    as [[Hnone Hpub]|[(Hsome&_&Hpub)|(Hsome&_&Hpub)]];
    rewrite Hpub; clear Hpub; [done| |done].
  match goal with
  | |- context [_publish_batch ?p2 ?e1] =>
      pose proof (publish_batch_cases p2 e1) as Hcases
  end.
  simpl in Hcases.
  destruct Hcases as (_&Hsnap&_).
  - by destruct (message_queue p), (accepted p readings thresholds).
  - by rewrite Hsnap.
Qed.

Lemma snapshot_is_last_accepted_witness :
  last_published_values
    (publish snapshot_20 (world None pubsub_down)
       [Reading.mk "bme280_1" "BME280" "2024-01-01T00:00:00"
          {[ "humidity" := 40.0%float; "temperature" := 20.0%float ]}
          "ok" None None None None None;
        reading_of "bme280_1" "ok" "humidity" 45.0%float;
        reading_of "bme280_1" "ok" "humidity" 46.0%float]
       default_thresholds).1 !! "bme280_1"
  = Some {[ "humidity" := 45.0%float ]}.
Proof.
  rewrite (snapshot_is_last_accepted snapshot_20 (world None pubsub_down)
             _ default_thresholds "bme280_1" eq_refl).
  vm_compute. reflexivity.
Defined.

(** ** The two flush triggers of [publish] *)

(** X4: while the queue with the newly accepted readings stays short of
    [batch_size] and [max_batch_wait] has not elapsed at the time
    [publish] reads, [publish] only enqueues: the accepted readings join
    the end of the queue, nothing is handed to the client, and the
    counters, the offline buffer and [last_batch_time] stay as they
    are. *)
Theorem publish_defers_short_batch (p : t) (e : env)
    (readings : list Reading.t) (thresholds : gmap string float) :
  enabled p = true ->
  (Z.of_nat (length (message_queue p ++ accepted p readings thresholds))
   < batch_size p)%Z ->
  (max_batch_wait p
   <=? Clock.source (clock e) (Clock.calls (clock e)) - last_batch_time p)%float
  = false ->
  message_queue (publish p e readings thresholds).1
    = message_queue p ++ accepted p readings thresholds /\
  sent (publish p e readings thresholds).2 = sent e /\
  publish_count (publish p e readings thresholds).1 = publish_count p /\
  error_count (publish p e readings thresholds).1 = error_count p /\
  offline_buffer (publish p e readings thresholds).1 = offline_buffer p /\
  last_batch_time (publish p e readings thresholds).1 = last_batch_time p.
Proof.
  intros Henabled Hshort Hwait.
  destruct (publish_shape p e readings thresholds Henabled)
    as [[Hnone Hpub]|[(Hsome&Hdue&Hpub)|(Hsome&_&Hpub)]].
  - rewrite Hpub, Hnone. simpl. by rewrite app_nil_r.
  - rewrite Hwait, orb_false_r in Hdue. apply Z.leb_le in Hdue. lia.
  - by rewrite Hpub.
Qed.

Lemma publish_defers_short_batch_witness :
  message_queue (publish (queued 10 [r1]) (world None pubsub_up)
                   tick_readings default_thresholds).1
    = [r1; r1; reading_of "bme280_1" "ok" "humidity" 55.0%float] /\
  sent (publish (queued 10 [r1]) (world None pubsub_up)
          tick_readings default_thresholds).2 = [] /\
  publish_count (publish (queued 10 [r1]) (world None pubsub_up)
                   tick_readings default_thresholds).1 = 0 /\
  error_count (publish (queued 10 [r1]) (world None pubsub_up)
                 tick_readings default_thresholds).1 = 0 /\
  offline_buffer (publish (queued 10 [r1]) (world None pubsub_up)
                    tick_readings default_thresholds).1 = [] /\
  last_batch_time (publish (queued 10 [r1]) (world None pubsub_up)
                     tick_readings default_thresholds).1 = 100%float.
Proof.
  apply (publish_defers_short_batch (queued 10 [r1]) (world None pubsub_up)
           tick_readings default_thresholds).
  - reflexivity.
  - vm_compute. reflexivity.
  - vm_compute. reflexivity.
Defined.

(** X5: when [max_batch_wait] has elapsed at the time [publish] reads and
    at least one reading is accepted, [publish] flushes although the
    queue is short of [batch_size]: with a transport that succeeds, the
    oldest [batch_size] readings of the queue with the accepted ones are
    handed to the client in order, [publish_count] grows by their number,
    the rest stays queued and [last_batch_time] is the next clock
    reading. *)
Theorem publish_flushes_after_wait (p : t) (e : env)
    (readings : list Reading.t) (thresholds : gmap string float) c :
  enabled p = true ->
  publisher p = Some c ->
  (forall log m, pubsub e log m = Some (Future true)) ->
  accepted p readings thresholds <> [] ->
  (max_batch_wait p
   <=? Clock.source (clock e) (Clock.calls (clock e)) - last_batch_time p)%float
  = true ->
  let queue := message_queue p ++ accepted p readings thresholds in
  let n := Z.to_nat (batch_size p) in
  sent (publish p e readings thresholds).2 = sent e ++ (Bytes <$> take n queue) /\
  message_queue (publish p e readings thresholds).1 = drop n queue /\
  publish_count (publish p e readings thresholds).1
    = publish_count p + length (take n queue) /\
  error_count (publish p e readings thresholds).1 = error_count p /\
  offline_buffer (publish p e readings thresholds).1 = offline_buffer p /\
  last_batch_time (publish p e readings thresholds).1
    = Clock.source (clock e) (S (Clock.calls (clock e))).
Proof.
  intros Henabled Hclient Hup Hsome Hwait queue n.
  destruct (publish_shape p e readings thresholds Henabled)
    as [[Hnone _]|[(_&_&Hpub)|(_&Hdue&_)]]; [done| |].
  - rewrite Hpub.
    match goal with
    | |- context [_publish_batch ?p2 ?e1] =>
        rewrite (publish_batch_succeeded p2 e1 c);
          [rewrite batch_take|simpl..]
    end.
    + simpl. by rewrite length_fmap.
    + fold queue. intros Hq. apply app_eq_nil in Hq as [_ Hq]. done.
    + done.
    + done.
  - by rewrite Hwait, orb_true_r in Hdue.
Qed.

Lemma publish_flushes_after_wait_witness :
  sent (publish (overdue 10 [r1]) (world None pubsub_up)
          tick_readings default_thresholds).2
    = [Bytes r1; Bytes r1;
       Bytes (reading_of "bme280_1" "ok" "humidity" 55.0%float)] /\
  message_queue (publish (overdue 10 [r1]) (world None pubsub_up)
                   tick_readings default_thresholds).1 = [] /\
  publish_count (publish (overdue 10 [r1]) (world None pubsub_up)
                   tick_readings default_thresholds).1 = 3 /\
  error_count (publish (overdue 10 [r1]) (world None pubsub_up)
                 tick_readings default_thresholds).1 = 0 /\
  offline_buffer (publish (overdue 10 [r1]) (world None pubsub_up)
                    tick_readings default_thresholds).1 = [] /\
  last_batch_time (publish (overdue 10 [r1]) (world None pubsub_up)
                     tick_readings default_thresholds).1 = 102%float.
Proof.
  apply (publish_flushes_after_wait (overdue 10 [r1]) (world None pubsub_up)
           tick_readings default_thresholds (PublisherClient false)).
  - reflexivity.
  - reflexivity.
  - reflexivity.
  - vm_compute. discriminate.
  - vm_compute. reflexivity.
Defined.

(** ** Draining the queue *)

(** X6: with a transport that succeeds and a positive [batch_size],
    [flush] called often enough empties the queue: after [n] calls with
    [n * batch_size] at least the queue length, every queued reading has
    been handed to the client exactly once, in queue order,
    [publish_count] has grown by the queue length and nothing was
    buffered. *)
Theorem repeated_flush_drains_queue (n : nat) :
  forall (p : t) (e : env) c,
  publisher p = Some c ->
  (forall log m, pubsub e log m = Some (Future true)) ->
  (0 < batch_size p)%Z ->
  length (message_queue p) <= n * Z.to_nat (batch_size p) ->
  message_queue (flush_times n p e).1 = [] /\
  sent (flush_times n p e).2 = sent e ++ (Bytes <$> message_queue p) /\
  publish_count (flush_times n p e).1
    = publish_count p + length (message_queue p) /\
  error_count (flush_times n p e).1 = error_count p /\
  offline_buffer (flush_times n p e).1 = offline_buffer p.
Proof.
  induction n as [|n IH]; intros p e c Hclient Hup Hsize Hlen; simpl.
  - assert (Hq : message_queue p = []) by (apply nil_length_inv; lia).
    rewrite Hq. simpl. rewrite app_nil_r. repeat split; lia.
  - unfold flush. destruct (message_queue p) as [|reading rest] eqn:Hq.
    + destruct (IH p e c) as (IHq&IHsent&IHcount&IHerr&IHbuf); try done.
      { rewrite Hq. simpl. lia. }
      by rewrite Hq in IHsent, IHcount.
    + rewrite (publish_batch_succeeded p e c); [|by rewrite Hq|done..].
      rewrite batch_take, Hq.
      match goal with
      | |- context [flush_times n ?p1 ?e1] =>
          destruct (IH p1 e1 c) as (IHq&IHsent&IHcount&IHerr&IHbuf)
      end; simpl; try done.
      { rewrite length_drop. lia. }
      simpl in IHsent, IHcount, IHerr, IHbuf.
      rewrite IHsent, IHcount, IHerr, IHbuf.
      repeat split; try done.
      * by rewrite <- app_assoc, <- fmap_app, take_drop.
      * rewrite length_fmap, <- Nat.add_assoc, <- length_app.
        by rewrite take_drop.
Qed.

Lemma repeated_flush_drains_queue_witness :
  message_queue (flush_times 2 (queued 2 [r1; r2; r3]) (world None pubsub_up)).1
    = [] /\
  sent (flush_times 2 (queued 2 [r1; r2; r3]) (world None pubsub_up)).2
    = [Bytes r1; Bytes r2; Bytes r3] /\
  publish_count
    (flush_times 2 (queued 2 [r1; r2; r3]) (world None pubsub_up)).1 = 3 /\
  error_count
    (flush_times 2 (queued 2 [r1; r2; r3]) (world None pubsub_up)).1 = 0 /\
  offline_buffer
    (flush_times 2 (queued 2 [r1; r2; r3]) (world None pubsub_up)).1 = [].
Proof.
  apply (repeated_flush_drains_queue 2 (queued 2 [r1; r2; r3])
           (world None pubsub_up) (PublisherClient false)).
  - reflexivity.
  - reflexivity.
  - reflexivity.
  - vm_compute. lia.
Defined.

(** ** Construction *)

(** X7: the constructor takes [batch_size] (default 10) and
    [max_batch_wait] (default 5) from the configuration, starts with an
    empty queue, no snapshots, zero counters and the current time as
    [last_batch_time]; the publisher ends up enabled exactly when the
    configuration enables it, the Pub/Sub library is installed and the
    client could be built, which is also exactly when it holds a client;
    a publisher that is not enabled ignores [publish] and [shutdown]
    altogether. *)
Theorem constructor_enables_only_with_client (cfg : config) (e : env) :
  let p := (__init__ cfg e).1 in
  (enabled p = true <->
   cfg_enabled cfg = Some true /\ pubsub_available e = true /\
   client_constructs e = true) /\
  (enabled p = true <-> is_Some (publisher p)) /\
  batch_size p = default 10%Z (cfg_batch_size cfg) /\
  max_batch_wait p = default 5%float (cfg_max_batch_wait cfg) /\
  message_queue p = [] /\
  last_published_values p = ∅ /\
  publish_count p = 0 /\ error_count p = 0 /\
  last_batch_time p = Clock.source (clock e) (Clock.calls (clock e)) /\
  (enabled p = false ->
   forall e' readings thresholds,
     publish p e' readings thresholds = (p, e') /\ shutdown p e' = (p, e')).
Proof.
  unfold __init__, time_time, Clock.now, _initialize_publisher.
  cbv beta iota zeta. simpl.
  destruct (cfg_enabled cfg) as [[]|], (pubsub_available e),
    (client_constructs e); simpl;
    repeat split; try done; try (by intros (?&?&?)); try (by intros [? ?]);
    try (by eexists).
Qed.

(** ** The offline buffer file *)

Lemma json_dump_str (items : list string) : json_dump (Str <$> items) = Some items.
Proof.
  induction items as [|s rest IH]; [done|].
  change (json_dump (Str <$> s :: rest))
    with (cons s <$> json_dump (Str <$> rest)).
  by rewrite IH.
Qed.

(** X8: on a writable disk, a buffer of [str] items written by
    [_save_offline_buffer] is read back by [_load_offline_buffer] into any
    publisher as it was; a buffer that holds a [bytes] item leaves a file
    that [_load_offline_buffer] cannot read, and loading then leaves the
    publisher as it is. *)
Theorem offline_buffer_round_trip (p p0 : t) (e : env) :
  disk_writable e = true ->
  (forall items,
     offline_buffer p = Str <$> items ->
     offline_buffer_file (_save_offline_buffer p e) = Some (JsonArray items) /\
     offline_buffer (_load_offline_buffer p0 (_save_offline_buffer p e))
     = offline_buffer p) /\
  (forall reading,
     Bytes reading ∈ offline_buffer p ->
     offline_buffer_file (_save_offline_buffer p e) = Some Malformed /\
     _load_offline_buffer p0 (_save_offline_buffer p e) = p0).
Proof.
  intros Hdisk. unfold _save_offline_buffer, _load_offline_buffer.
  rewrite Hdisk. split.
  - intros items Hitems. by rewrite Hitems, json_dump_str.
  - intros reading Hin. by rewrite (json_dump_bytes _ reading).
Qed.

Lemma offline_buffer_round_trip_witness :
  let p := set_offline_buffer [Str "m1"; Str "m2"] (queued 10 []) in
  let q := set_offline_buffer [Str "m1"; Bytes r1] (queued 10 []) in
  let e := world None pubsub_up in
  (offline_buffer_file (_save_offline_buffer p e)
     = Some (JsonArray ["m1"; "m2"]) /\
   offline_buffer (_load_offline_buffer (queued 2 []) (_save_offline_buffer p e))
     = [Str "m1"; Str "m2"]) /\
  (offline_buffer_file (_save_offline_buffer q e) = Some Malformed /\
   _load_offline_buffer (queued 2 []) (_save_offline_buffer q e) = queued 2 []).
Proof.
  split.
  - apply (proj1 (offline_buffer_round_trip
                    (set_offline_buffer [Str "m1"; Str "m2"] (queued 10 []))
                    (queued 2 []) (world None pubsub_up) eq_refl)
                 ["m1"; "m2"]).
    reflexivity.
  - apply (proj2 (offline_buffer_round_trip
                    (set_offline_buffer [Str "m1"; Bytes r1] (queued 10 []))
                    (queued 2 []) (world None pubsub_up) eq_refl)
                 r1).
    apply elem_of_cons. right. apply elem_of_cons. by left.
Defined.

(** ** A batch filled over several calls *)


End Accounting.

(** ** Floats *)

Section SameValue.

Local Open Scope float_scope.

Lemma SFsub_diag_abs x :
  SFabs (SFsub prec emax x x) = S754_zero false \/
  SFabs (SFsub prec emax x x) = S754_nan.
Proof.
  destruct x as [sign|sign| |sign m ex]; simpl.
  - left. by destruct sign.
  - right. by destruct sign.
  - by right.
  - left. by rewrite Z.sub_diag.
Qed.

(** The difference of a float with itself (zero, or not a number) exceeds
    no threshold that is at least zero. *)
Lemma same_value_never_exceeds (threshold value : float) :
  (0 <=? threshold) = true -> (threshold <? abs (value - value)) = false.
Proof.
  rewrite FloatAxioms.leb_spec, FloatAxioms.ltb_spec, FloatAxioms.abs_spec,
    FloatAxioms.sub_spec. unfold SF64sub.
  destruct (SFsub_diag_abs (Prim2SF value)) as [Hdiff|Hdiff];
    rewrite Hdiff; clear Hdiff.
  - change (Prim2SF 0) with (S754_zero false).
    by destruct (Prim2SF threshold) as [[]|[]| |[] m ex].
  - intros _. by destruct (Prim2SF threshold).
Qed.

End SameValue.

(** ** A reading that did not move *)

Section Unmoved.

Import CloudPublisher.

Lemma any_metric_moved_same (values thresholds : gmap string float) :
  (forall metric t, thresholds !! metric = Some t -> (0 <=? t)%float = true) ->
  any_metric_moved (map_to_list values) values thresholds = false.
Proof.
  intros Hthresholds. apply not_true_is_false. intros Hmoved.
  apply any_metric_moved_true in Hmoved
    as (metric&value&last_value&Hin&Hlast&Hcmp).
  apply elem_of_map_to_list in Hin. rewrite Hin in Hlast.
  inversion Hlast; subst last_value.
  rewrite same_value_never_exceeds in Hcmp; [done|].
  destruct (thresholds !! metric) as [t|] eqn:Ht; [by eapply Hthresholds|done].
Qed.

(** X9: with thresholds that are all at least zero, a reading whose metric
    map is the sensor's snapshot does not pass the filter (also when a
    value is not a number), so of a reading handed to [publish] twice in a
    row the second copy is never accepted. *)
Theorem repeated_reading_is_suppressed (thresholds : gmap string float)
    (p : t) (reading : Reading.t) :
  (forall metric t, thresholds !! metric = Some t -> (0 <=? t)%float = true) ->
  (last_published_values p !! Reading.sensor_id reading
     = Some (Reading.readings reading) ->
   should_publish p reading thresholds = false) /\
  accepted p [reading; reading] thresholds = accepted p [reading] thresholds.
Proof.
  intros Hthresholds.
  assert (Hsame : forall q,
            last_published_values q !! Reading.sensor_id reading
              = Some (Reading.readings reading) ->
            should_publish q reading thresholds = false).
  { intros q Hsnap. unfold should_publish. rewrite Hsnap.
    by apply any_metric_moved_same. }
  split; [apply Hsame|].
  unfold accepted.
  rewrite (filter_readings_cons thresholds reading [reading] p).
  destruct (String.eqb (Reading.status reading) "ok"
            && should_publish p reading thresholds) eqn:Hcond.
  - rewrite (filter_readings_cons thresholds reading [] p), Hcond.
    simpl fst. f_equal. unfold accepted.
    rewrite filter_readings_cons, Hsame; [by rewrite andb_false_r|].
    unfold accept. simpl. by rewrite lookup_insert_eq.
  - by rewrite (filter_readings_cons thresholds reading [] p), Hcond.
Qed.

Lemma repeated_reading_is_suppressed_witness :
  (last_published_values snapshot_20 !! "bmp280_1"
     = Some {[ "temperature" := 20.0%float ]} ->
   should_publish snapshot_20 r1 default_thresholds = false) /\
  accepted (queued 10 []) [r1; r1] default_thresholds = [r1].
Proof.
  assert (Hthresholds : forall metric t,
            default_thresholds !! metric = Some t -> (0 <=? t)%float = true).
  { intros metric t Ht. unfold default_thresholds in Ht.
    repeat (apply lookup_insert_Some in Ht as [[_ <-]|[_ Ht]]; [reflexivity|]).
    apply lookup_singleton_Some in Ht as [_ <-]. reflexivity. }
  split.
  - apply (proj1 (repeated_reading_is_suppressed default_thresholds
                    snapshot_20 r1 Hthresholds)).
  - rewrite (proj2 (repeated_reading_is_suppressed default_thresholds
                      (queued 10 []) r1 Hthresholds)).
    vm_compute. reflexivity.
Defined.

End Unmoved.

(** ** More on sensors *)

Section MoreSensors.

Import BaseSensor.



(** Failing reads leave [last_reading] and [last_reading_time] alone. *)
Lemma poll_failures_keep_last_reading k :
  forall (s : t) clock,
  (forall j, j < k -> exists detail, hardware s (reads s + j) = Raises detail) ->
  last_reading (poll k s clock).1.2 = last_reading s /\
  last_reading_time (poll k s clock).1.2 = last_reading_time s.
Proof.
  induction k as [|k IH]; intros s clock Hfail; simpl; [done|].
  destruct (Hfail 0 ltac:(lia)) as (detail&Hfirst).
  rewrite Nat.add_0_r in Hfirst.
  pose proof (read_with_metadata_hardware s clock) as (Hhw&Hreads&_).
  assert (Hkeep : last_reading (read_with_metadata s clock).1.2
                  = last_reading s
                  /\ last_reading_time (read_with_metadata s clock).1.2
                     = last_reading_time s).
  { unfold read_with_metadata, read, Clock.now. simpl. by rewrite Hfirst. }
  destruct Hkeep as [Hvalues Htime].
  destruct (read_with_metadata s clock) as [[reading s1] clock1].
  simpl in *.
  destruct (IH s1 clock1) as (IHvalues&IHtime).
  { intros j Hj. rewrite Hhw, Hreads.
    destruct (Hfail (S j) ltac:(lia)) as (d&Hd). exists d.
    by rewrite <- Hd, Nat.add_succ_r. }
  destruct (poll k s1 clock1) as [[readings s2] clock2]. simpl in *.
  by rewrite IHvalues, IHtime.
Qed.

(** Failing reads report no metrics. *)
Lemma poll_failures_readings k :
  forall (s : t) clock,
  (forall j, j < k -> exists detail, hardware s (reads s + j) = Raises detail) ->
  map Reading.readings (poll k s clock).1.1 = replicate k ∅.
Proof.
  induction k as [|k IH]; intros s clock Hfail; simpl; [done|].
  destruct (Hfail 0 ltac:(lia)) as (detail&Hraise).
  rewrite Nat.add_0_r in Hraise.
  pose proof (read_with_metadata_hardware s clock) as (Hhw&Hreads&_).
  destruct (read_with_metadata_raises s clock detail Hraise)
    as (_&_&_&Hempty&_).
  destruct (read_with_metadata s clock) as [[reading s1] clock1].
  simpl in Hhw, Hreads, Hempty.
  assert (Hlater : forall j, j < k ->
            exists d, hardware s1 (reads s1 + j) = Raises d).
  { intros j Hj. rewrite Hhw, Hreads.
    destruct (Hfail (S j) ltac:(lia)) as (d&Hd). exists d.
    by rewrite <- Hd, Nat.add_succ_r. }
  specialize (IH s1 clock1 Hlater).
  destruct (poll k s1 clock1) as [[more s2] clock2]. simpl in IH |- *.
  by rewrite Hempty, IH.
Qed.

(** X11: a failed read keeps the sensor's last good values: after a
    successful read followed by [k] failing ones, [get_status] still
    reports the values of the successful read and the time of that read,
    next to an [error_count] of [k]; the failures themselves are reported
    with an empty metric map. *)
Theorem failed_reads_keep_last_reading (s : t) (clock : Clock.t string)
    (values : gmap string float) (k : nat) :
  hardware s (reads s) = Values values ->
  (forall j, j < k ->
     exists detail, hardware s (S (reads s) + j) = Raises detail) ->
  status_last_reading (get_status (poll (S k) s clock).1.2) = Some values /\
  status_last_reading_time (get_status (poll (S k) s clock).1.2)
    = Some (Clock.source clock (Clock.calls clock)) /\
  status_error_count (get_status (poll (S k) s clock).1.2) = k /\
  map Reading.readings (poll (S k) s clock).1.1
    = values :: replicate k ∅.
Proof.
  intros Hok Hfail. simpl poll.
  pose proof (read_with_metadata_hardware s clock) as (Hhw&Hreads&_).
  assert (Hfirst : last_reading (read_with_metadata s clock).1.2 = Some values
                   /\ last_reading_time (read_with_metadata s clock).1.2
                      = Some (Clock.source clock (Clock.calls clock))
                   /\ Reading.readings (read_with_metadata s clock).1.1
                      = values
                   /\ error_count (read_with_metadata s clock).1.2 = 0).
  { unfold read_with_metadata, read, Clock.now. simpl. by rewrite Hok. }
  destruct Hfirst as (Hvalues&Htime&Hreading&Hzero).
  assert (Hlater : forall j, j < k ->
            exists detail,
              hardware (read_with_metadata s clock).1.2
                (reads (read_with_metadata s clock).1.2 + j)
              = Raises detail).
  { intros j Hj. rewrite Hhw, Hreads. by apply Hfail. }
  destruct (read_with_metadata s clock) as [[reading s1] clock1].
  simpl in Hvalues, Htime, Hreading, Hzero, Hlater.
  destruct (poll_failures_keep_last_reading k s1 clock1 Hlater)
    as (Hkeep&Hkeeptime).
  destruct (poll_failures k s1 clock1 Hlater) as (Hcount&_).
  pose proof (poll_failures_readings k s1 clock1 Hlater) as Hempty.
  destruct (poll k s1 clock1) as [[more s2] clock2].
  simpl in Hkeep, Hkeeptime, Hcount, Hempty. simpl.
  rewrite Hkeep, Hkeeptime, Hcount, Hzero, Hempty, Hreading. done.
Qed.

Lemma failed_reads_keep_last_reading_witness :
  status_last_reading (get_status (poll 4 flaky_sensor wall_clock).1.2)
    = Some {[ "temperature" := 20.0%float ]} /\
  status_last_reading_time (get_status (poll 4 flaky_sensor wall_clock).1.2)
    = Some "2024-01-01T00:00:00" /\
  status_error_count (get_status (poll 4 flaky_sensor wall_clock).1.2) = 3 /\
  map Reading.readings (poll 4 flaky_sensor wall_clock).1.1
    = [ {[ "temperature" := 20.0%float ]}; ∅; ∅; ∅ ].
Proof.
  apply (failed_reads_keep_last_reading flaky_sensor wall_clock
           {[ "temperature" := 20.0%float ]} 3).
  - reflexivity.
  - intros j _. exists "I2C timeout". reflexivity.
Defined.

End MoreSensors.

(** ** More on the manager *)

Section MoreManager.

Import SensorManager.

Lemma read_all_sensors_frame (m : t) (e : env) :
  config (read_all_sensors m e).1.2 = config m /\
  data_callback (read_all_sensors m e).1.2 = data_callback m /\
  is_running (read_all_sensors m e).1.2 = is_running m /\
  delivered (read_all_sensors m e).2 = delivered e.
Proof.
  unfold read_all_sensors.
  by destruct (read_sensors (sensors m) (clock e)) as [[readings sensors'] clock'].
Qed.

(** X13: one pass of the collection loop hands the callback at most one
    batch: when a callback is registered, at least one sensor is active
    and the configuration has [device_id], [customer_id] and [location],
    the batch holds every reading of the pass, failed reads included, each
    with these three values attached, and the pass goes on whether the
    callback returns or raises; when no callback is registered, no sensor
    is active or one of the three keys is missing, nothing is handed over,
    although the sensors were read. *)
Theorem collect_once_delivers_one_batch (m : t) (e : env) :
  let readings := (read_all_sensors m e).1.1 in
  sensors (collect_once m e).1 = sensors (read_all_sensors m e).1.2 /\
  (forall d c l callback,
     config m !! "device_id" = Some d ->
     config m !! "customer_id" = Some c ->
     config m !! "location" = Some l ->
     data_callback m = Some callback ->
     readings <> [] ->
     delivered (collect_once m e).2
     = delivered e
       ++ [(Reading.with_device d c l <$> readings,
            callback (Reading.with_device d c l <$> readings))]) /\
  (config m !! "device_id" = None \/ config m !! "customer_id" = None \/
   config m !! "location" = None \/ data_callback m = None \/ readings = [] ->
   delivered (collect_once m e).2 = delivered e).
Proof.
  intros readings. subst readings. unfold collect_once.
  pose proof (read_all_sensors_frame m e) as (Hcfg&Hcallback&_&Hdelivered).
  destruct (read_all_sensors m e) as [[readings m1] e1].
  simpl in Hcfg, Hcallback, Hdelivered |- *. rewrite Hcfg, Hcallback.
  destruct readings as [|reading rest].
  - split; [done|]. split; [by intros|done].
  - destruct (config m !! "device_id") as [d|],
      (config m !! "customer_id") as [c|],
      (config m !! "location") as [l|],
      (data_callback m) as [callback|]; simpl;
      (split; [done|]);
      (split;
       [intros d' c' l' callback' Hd Hc Hl Hcb _;
        try done; inversion Hd; inversion Hc; inversion Hl; inversion Hcb;
        subst; by rewrite Hdelivered
       |intros Hor; try done;
        destruct Hor as [?|[?|[?|[?|?]]]]; done]).
Qed.

Lemma collect_once_delivers_one_batch_witness :
  map (fun batch =>
         map (fun r => (Reading.sensor_id r, Reading.status r,
                        Reading.device_id r, Reading.location r)) batch.1)
      (delivered (collect_once running_manager manager_world).2)
  = [ [("bmp280_1", "ok", Some (JStr "rpi_001"), Some (JStr "unknown"));
       ("dht22_1", "ok", Some (JStr "rpi_001"), Some (JStr "unknown"))] ].
Proof.
  destruct (collect_once_delivers_one_batch running_manager manager_world)
    as (_&Hbatch&_).
  rewrite (Hbatch (JStr "rpi_001") (JStr "customer_001") (JStr "unknown")
             (fun _ => true) eq_refl eq_refl eq_refl eq_refl);
    [|vm_compute; discriminate].
  vm_compute. reflexivity.
Defined.

Lemma get_set_sensor (sensors : list (string * BaseSensor.t)) id sensor :
  is_Some (get_sensor sensors id) ->
  get_sensor (set_sensor sensors id sensor) id = Some sensor /\
  (forall other, other <> id ->
     get_sensor (set_sensor sensors id sensor) other = get_sensor sensors other) /\
  (set_sensor sensors id sensor).*1 = sensors.*1.
Proof.
  induction sensors as [|[key old] rest IH]; simpl; intros Hsome.
  - by destruct Hsome.
  - destruct (String.eqb_spec key id) as [->|Hne]; simpl.
    + rewrite String.eqb_refl. split; [done|]. split; [|done].
      intros other Hother. by destruct (String.eqb_spec id other).
    + destruct (IH Hsome) as (Hget&Hother&Hkeys).
      destruct (String.eqb_spec key id); [done|].
      split; [done|]. split; [|simpl; f_equal; exact Hkeys].
      intros other Hne'. destruct (String.eqb_spec key other); [done|].
      by apply Hother.
Qed.

(** X14: [read_sensor] on an id the manager does not know, or on a sensor
    that is not active, answers [None] and changes nothing, and the sensor
    is not read; on an active sensor it answers what [read_with_metadata]
    gives, puts the updated sensor back under the same id, and leaves every
    other sensor and the order of the sensors as they are. *)
Theorem read_sensor_touches_one_sensor (m : t) (e : env) (sensor_id : string) :
  (get_sensor (sensors m) sensor_id = None ->
   read_sensor m e sensor_id = (None, m, e)) /\
  (forall sensor,
     get_sensor (sensors m) sensor_id = Some sensor ->
     BaseSensor.is_active sensor = false ->
     read_sensor m e sensor_id = (None, m, e)) /\
  (forall sensor,
     get_sensor (sensors m) sensor_id = Some sensor ->
     BaseSensor.is_active sensor = true ->
     (read_sensor m e sensor_id).1.1
       = Some (BaseSensor.read_with_metadata sensor (clock e)).1.1 /\
     get_sensor (sensors (read_sensor m e sensor_id).1.2) sensor_id
       = Some (BaseSensor.read_with_metadata sensor (clock e)).1.2 /\
     (forall other, other <> sensor_id ->
        get_sensor (sensors (read_sensor m e sensor_id).1.2) other
        = get_sensor (sensors m) other) /\
     (sensors (read_sensor m e sensor_id).1.2).*1 = (sensors m).*1).
Proof.
  unfold read_sensor. split; [|split].
  - by intros ->.
  - intros sensor -> ->. done.
  - intros sensor Hget Hactive. rewrite Hget, Hactive.
    destruct (BaseSensor.read_with_metadata sensor (clock e))
      as [[reading sensor'] clock'].
    simpl.
    destruct (get_set_sensor (sensors m) sensor_id sensor') as (Hsame&Hother&Hkeys);
      [by rewrite Hget|].
    done.
Qed.

Lemma read_sensor_touches_one_sensor_witness :
  read_sensor running_manager manager_world "bme280_1"
    = (None, running_manager, manager_world) /\
  (Reading.status <$> (read_sensor running_manager manager_world "dht22_1").1.1
     = Some "ok" /\
   BaseSensor.reads
     <$> get_sensor
           (sensors (read_sensor running_manager manager_world "dht22_1").1.2)
           "dht22_1" = Some 1 /\
   BaseSensor.reads
     <$> get_sensor
           (sensors (read_sensor running_manager manager_world "dht22_1").1.2)
           "bmp280_1" = Some 0).
Proof.
  destruct (read_sensor_touches_one_sensor running_manager manager_world
              "bme280_1") as (_&Hidle&_).
  destruct (read_sensor_touches_one_sensor running_manager manager_world
              "dht22_1") as (_&_&Hactive).
  split.
  - apply (Hidle idle_sensor); reflexivity.
  - destruct (Hactive steady_sensor eq_refl eq_refl) as (Hreading&Hsensor&Hothers&_).
    rewrite Hreading, Hsensor, (Hothers "bmp280_1"); [|discriminate].
    vm_compute. repeat split.
Defined.

(** X15: [start_collection] on a running manager and [stop_collection] on
    an idle one change nothing, so starting twice is starting once and
    stopping twice is stopping once; starting an idle manager sets the flag
    and starts one new thread, stopping a running one clears the flag and
    joins the loop's thread if there is one, and the thread stays recorded
    in [collection_thread] after the stop; [shutdown] stops the loop and a
    second [shutdown] does nothing. *)
Theorem start_and_stop_are_idempotent (m : t) (e : env) :
  (is_running m = true -> start_collection m e = (m, e)) /\
  (is_running m = false -> stop_collection m e = (m, e)) /\
  start_collection (start_collection m e).1 (start_collection m e).2
    = start_collection m e /\
  stop_collection (stop_collection m e).1 (stop_collection m e).2
    = stop_collection m e /\
  shutdown (shutdown m e).1 (shutdown m e).2 = shutdown m e /\
  is_running (start_collection m e).1 = true /\
  is_running (stop_collection m e).1 = false /\
  (is_running m = false ->
   threads (start_collection m e).2 = threads e ++ [Start (started (threads e))] /\
   collection_thread (start_collection m e).1 = Some (started (threads e))) /\
  (is_running m = true ->
   threads (stop_collection m e).2 = threads e ++ stop_events m /\
   collection_thread (stop_collection m e).1 = collection_thread m).
Proof.
  unfold shutdown, start_collection, stop_collection, stop_events.
  destruct (is_running m) eqn:Hrun; simpl; rewrite ?Hrun; simpl.
  - destruct (collection_thread m) as [thread|] eqn:Hthread; simpl;
      repeat split; try done.
    by rewrite app_nil_r.
  - repeat split; try done; by destruct m; simpl in *; subst.
Qed.

End MoreManager.

(** ** The set of sensors *)

Section SensorSetProperties.

Import SensorSet.

Lemma get_sensor_None (sensors : list (string * BaseSensor.t)) id :
  SensorManager.get_sensor sensors id = None <-> id ∉ sensors.*1.
Proof.
  induction sensors as [|[key s] rest IH]; simpl.
  - split; [intros _; apply not_elem_of_nil|done].
  - destruct (String.eqb_spec key id) as [->|Hne].
    + split; [done|]. intros Hnot. destruct Hnot. by left.
    + rewrite IH, not_elem_of_cons.
      split; [intros ?; split; [congruence|done]|by intros [_ ?]].
Qed.

Lemma get_sensor_Some (sensors : list (string * BaseSensor.t)) id :
  is_Some (SensorManager.get_sensor sensors id) <-> id ∈ sensors.*1.
Proof.
  destruct (SensorManager.get_sensor sensors id) as [s|] eqn:Hget.
  - split; [intros _|by eexists].
    destruct (decide (id ∈ sensors.*1)) as [|Hnot]; [done|].
    apply get_sensor_None in Hnot. congruence.
  - split; [by intros [? ?]|]. intros Hin.
    by apply get_sensor_None in Hget.
Qed.

Lemma get_sensor_app (sensors : list (string * BaseSensor.t)) id sensor :
  SensorManager.get_sensor sensors id = None ->
  SensorManager.get_sensor (sensors ++ [(id, sensor)]) id = Some sensor /\
  forall other, other <> id ->
    SensorManager.get_sensor (sensors ++ [(id, sensor)]) other
    = SensorManager.get_sensor sensors other.
Proof.
  induction sensors as [|[key s] rest IH]; simpl.
  - intros _. rewrite String.eqb_refl. split; [done|].
    intros other Hne. by destruct (String.eqb_spec id other).
  - destruct (String.eqb_spec key id) as [->|Hne]; [done|].
    intros Hnone. destruct (IH Hnone) as [Hnew Hold]. split; [done|].
    intros other Hother. destruct (String.eqb_spec key other); [done|].
    by apply Hold.
Qed.

Lemma del_sensor_spec (sensors : list (string * BaseSensor.t)) id :
  SensorManager.get_sensor (del_sensor sensors id) id = None /\
  (forall other, other <> id ->
     SensorManager.get_sensor (del_sensor sensors id) other
     = SensorManager.get_sensor sensors other) /\
  (del_sensor sensors id).*1
  = List.filter (fun key => negb (String.eqb key id)) sensors.*1.
Proof.
  induction sensors as [|[key s] rest (IHnone&IHother&IHkeys)]; simpl; [done|].
  destruct (String.eqb_spec key id) as [->|Hne]; simpl.
  - split; [done|]. split; [|done].
    intros other Hother. destruct (String.eqb_spec id other); [done|].
    by apply IHother.
  - destruct (String.eqb_spec key id); [done|].
    split; [done|]. split; [|simpl; f_equal; exact IHkeys].
    intros other Hother. destruct (String.eqb_spec key other); [done|].
    by apply IHother.
Qed.

Lemma del_sensor_fresh (sensors : list (string * BaseSensor.t)) id :
  SensorManager.get_sensor sensors id = None -> del_sensor sensors id = sensors.
Proof.
  induction sensors as [|[key s] rest IH]; simpl; [done|].
  destruct (String.eqb_spec key id); [done|]. simpl. intros Hnone.
  by rewrite IH.
Qed.

Lemma del_sensor_app (sensors more : list (string * BaseSensor.t)) id :
  del_sensor (sensors ++ more) id = del_sensor sensors id ++ del_sensor more id.
Proof. unfold del_sensor. apply List.filter_app. Qed.

(** What [create] gives is a sensor as [BaseSensor.__init__] leaves it. *)
Lemma create_fresh here class id cfg sensor :
  Sensors.create here class id cfg = Some sensor ->
  BaseSensor.sensor_id sensor = id /\
  BaseSensor.is_active sensor = true /\
  BaseSensor.error_count sensor = 0 /\
  BaseSensor.last_reading sensor = None /\
  BaseSensor.last_reading_time sensor = None /\
  BaseSensor.reads sensor = 0.
Proof.
  unfold Sensors.create. destruct class.
  - destruct (Sensors.address_of cfg) as [address|]; [|done].
    destruct (Sensors.bmp280 here address _) as [device|]; [|done].
    by intros [= <-].
  - by intros [= <-].
Qed.

(** The three ways [add_sensor] ends. *)
Lemma add_sensor_cases (r : t) (e : env) id type cfg :
  add_sensor r e id type cfg = (false, r, e) \/
  exists class sensor,
    SensorManager.get_sensor (SensorManager.sensors (manager r)) id = None /\
    Sensors.get_sensor_class type = Some class /\
    Sensors.create (site e) class id cfg = Some sensor /\
    manager (add_sensor r e id type cfg).1.2
    = set_sensors (SensorManager.sensors (manager r) ++ [(id, sensor)])
                  (manager r) /\
    site (add_sensor r e id type cfg).2 = site e /\
    ((config_sensors r = None /\
      add_sensor r e id type cfg
      = (false,
         mk (set_sensors (SensorManager.sensors (manager r) ++ [(id, sensor)])
                         (manager r)) None, e)) \/
     (exists entries,
        config_sensors r = Some entries /\
        (add_sensor r e id type cfg).1.1 = true /\
        config_sensors (add_sensor r e id type cfg).1.2
        = Some (entries
                ++ [mk_entry id type cfg
                      (Clock.now (SensorManager.clock (world e))).1]))).
Proof.
  unfold add_sensor.
  destruct (SensorManager.get_sensor _ id) as [old|] eqn:Hget; [by left|].
  destruct (Sensors.get_sensor_class type) as [class|]; [|by left].
  destruct (Sensors.create (site e) class id cfg) as [sensor|] eqn:Hcreate;
    [|by left].
  right. exists class, sensor.
  destruct (config_sensors r) as [entries|] eqn:Hlist.
  - unfold Clock.now, save_config. simpl.
    destruct (SensorManager.disk_writable (world e)); simpl;
      repeat split; try done; right; by exists entries.
  - simpl. repeat split; try done. by left.
Qed.

(** X16: [add_sensor] answers [False] and changes neither the manager nor
    the file when the id is already taken, when the type is not one of
    [BMP280] and [DHT22] (the names are matched exactly), or when the
    sensor does not initialize; the latter happens to a BMP280 only, when
    its configured address is not an integer or the driver finds no device
    there. *)
Theorem add_sensor_rejects_without_effect (r : t) (e : env) id type cfg :
  (is_Some (SensorManager.get_sensor (SensorManager.sensors (manager r)) id) ->
   add_sensor r e id type cfg = (false, r, e)) /\
  (type <> "BMP280" -> type <> "DHT22" ->
   add_sensor r e id type cfg = (false, r, e)) /\
  (forall class,
     Sensors.get_sensor_class type = Some class ->
     Sensors.create (site e) class id cfg = None ->
     add_sensor r e id type cfg = (false, r, e)) /\
  (forall class,
     Sensors.create (site e) class id cfg = None <->
     class = Sensors.BMP280Sensor /\
     forall address,
       Sensors.address_of cfg = Some address ->
       Sensors.bmp280 (site e) address
         (default (JFloat 1013.25) (cfg !! "sea_level_pressure")) = None).
Proof.
  unfold add_sensor. repeat split.
  - by intros [old ->].
  - intros Hbmp Hdht.
    destruct (SensorManager.get_sensor _ id); [done|].
    unfold Sensors.get_sensor_class.
    destruct (String.eqb_spec type "BMP280"); [done|].
    by destruct (String.eqb_spec type "DHT22").
  - intros class -> ->. by destruct (SensorManager.get_sensor _ id).
  - unfold Sensors.create in H. by destruct class.
  - unfold Sensors.create in H. destruct class; [|done].
    intros address Haddress. rewrite Haddress in H.
    by destruct (Sensors.bmp280 (site e) address _).
  - intros [-> Hnone]. unfold Sensors.create.
    destruct (Sensors.address_of cfg) as [address|]; [|done].
    by rewrite (Hnone address eq_refl).
Qed.

Lemma add_sensor_rejects_without_effect_witness :
  add_sensor (configured (Some [])) (bench_world (Some []))
             "bmp280_2" "BMP280" {[ "address" := JInt 119 ]}
  = (false, configured (Some []), bench_world (Some [])) /\
  add_sensor (configured (Some [])) (bench_world (Some []))
             "bmp280_1" "bmp280" ∅
  = (false, configured (Some []), bench_world (Some [])).
Proof.
  split.
  - apply (add_sensor_rejects_without_effect (configured (Some []))
             (bench_world (Some [])) "bmp280_2" "BMP280"
             {[ "address" := JInt 119 ]}) with (class := Sensors.BMP280Sensor);
      reflexivity.
  - apply (add_sensor_rejects_without_effect (configured (Some []))
             (bench_world (Some [])) "bmp280_1" "bmp280" ∅); discriminate.
Defined.

(** X17: when the id is free, the type is known, the sensor initializes
    and the configuration has its list of sensors, [add_sensor] answers
    [True]; the new sensor is the last of the dictionary, active, never
    read and without errors; every other sensor is as before; the list
    gains one last item with the id, the type, the configuration and the
    current time; and if the file can be written it holds the
    configuration with the new list, otherwise it is left as it was. *)
Theorem add_sensor_registers (r : t) (e : env) id type cfg class sensor entries :
  SensorManager.get_sensor (SensorManager.sensors (manager r)) id = None ->
  Sensors.get_sensor_class type = Some class ->
  Sensors.create (site e) class id cfg = Some sensor ->
  config_sensors r = Some entries ->
  let r' := (add_sensor r e id type cfg).1.2 in
  let e' := (add_sensor r e id type cfg).2 in
  (add_sensor r e id type cfg).1.1 = true /\
  sensor_ids r' = sensor_ids r ++ [id] /\
  SensorManager.get_sensor (SensorManager.sensors (manager r')) id = Some sensor /\
  (BaseSensor.sensor_id sensor = id /\ BaseSensor.is_active sensor = true /\
   BaseSensor.error_count sensor = 0 /\ BaseSensor.reads sensor = 0 /\
   BaseSensor.last_reading sensor = None) /\
  (forall other, other <> id ->
     SensorManager.get_sensor (SensorManager.sensors (manager r')) other
     = SensorManager.get_sensor (SensorManager.sensors (manager r)) other) /\
  config_sensors r'
  = Some (entries
          ++ [mk_entry id type cfg
                (Clock.now (SensorManager.clock (world e))).1]) /\
  SensorManager.config (manager r') = SensorManager.config (manager r) /\
  (if SensorManager.disk_writable (world e) then
     saved_sensors e' = config_sensors r' /\
     SensorManager.config_file (world e')
     = Some (SensorManager.config (manager r))
   else
     saved_sensors e' = saved_sensors e /\
     SensorManager.config_file (world e')
     = SensorManager.config_file (world e)).
Proof.
  intros Hfree Hclass Hcreate Hlist r' e'. subst r' e'.
  destruct (get_sensor_app _ id sensor Hfree) as [Hnew Hold].
  destruct (create_fresh _ _ _ _ _ Hcreate) as (Hid&Hactive&Herr&Hlast&_&Hreads).
  unfold add_sensor. rewrite Hfree, Hclass, Hcreate, Hlist.
  unfold Clock.now, save_config, sensor_ids. simpl.
  unfold SensorManager.save_config, set_clock, set_sensors. simpl.
  destruct (SensorManager.disk_writable (world e)) eqn:Hdisk; simpl;
    rewrite ?Hdisk; simpl; rewrite fmap_app; repeat split; done.
Qed.

Lemma add_sensor_registers_witness :
  let result := add_sensor (configured (Some [])) (bench_world (Some []))
                           "bmp280_1" "BMP280" ∅ in
  result.1.1 = true /\ sensor_ids result.1.2 = ["bmp280_1"] /\
  saved_sensors result.2
  = Some [mk_entry "bmp280_1" "BMP280" ∅ "2024-01-01T00:00:00"].
Proof.
  assert (Hcreate :
            Sensors.create bench Sensors.BMP280Sensor "bmp280_1" ∅
            = Some (BaseSensor.mk "bmp280_1" "BMP280"
                      (fun _ => BaseSensor.Values
                                  {[ "temperature" := 20.0%float ]})
                      0 None None true 0))
    by (vm_compute; reflexivity).
  destruct (add_sensor_registers (configured (Some [])) (bench_world (Some []))
              "bmp280_1" "BMP280" ∅ _ _ [] eq_refl eq_refl Hcreate eq_refl)
    as (Hok&Hids&_&_&_&Hlist&_&Hsaved).
  simpl in Hsaved. destruct Hsaved as [Hsaved _].
  cbv zeta. rewrite Hok, Hids, Hsaved, Hlist. repeat split.
Defined.

(** X18: when the configuration has no list of sensors, [add_sensor] and
    [remove_sensor] answer [False] although they took effect: the new
    sensor is in the dictionary (so that adding it again is refused as a
    duplicate), the removed one is gone, and in both cases nothing is
    written to the file. *)
Theorem missing_list_leaves_partial_effect (r : t) (e : env) id :
  config_sensors r = None ->
  (forall type cfg class sensor,
     SensorManager.get_sensor (SensorManager.sensors (manager r)) id = None ->
     Sensors.get_sensor_class type = Some class ->
     Sensors.create (site e) class id cfg = Some sensor ->
     let result := add_sensor r e id type cfg in
     result.1.1 = false /\ result.2 = e /\
     SensorManager.get_sensor (SensorManager.sensors (manager result.1.2)) id
     = Some sensor /\
     forall type' cfg',
       add_sensor result.1.2 result.2 id type' cfg' = (false, result.1.2, e)) /\
  (is_Some (SensorManager.get_sensor (SensorManager.sensors (manager r)) id) ->
   let result := remove_sensor r e id in
   result.1.1 = false /\ result.2 = e /\
   SensorManager.get_sensor (SensorManager.sensors (manager result.1.2)) id
   = None).
Proof.
  intros Hlist. split.
  - intros type cfg class sensor Hfree Hclass Hcreate result. subst result.
    destruct (get_sensor_app _ id sensor Hfree) as [Hnew _].
    assert (Hresult :
              add_sensor r e id type cfg
              = (false,
                 mk (set_sensors (SensorManager.sensors (manager r)
                                  ++ [(id, sensor)]) (manager r)) None, e)).
    { unfold add_sensor. by rewrite Hfree, Hclass, Hcreate, Hlist. }
    rewrite Hresult. simpl. repeat split; [done|].
    intros type' cfg'. unfold add_sensor. simpl. by rewrite Hnew.
  - intros [old Hold] result. subst result. unfold remove_sensor.
    rewrite Hold, Hlist. simpl. repeat split.
    apply del_sensor_spec.
Qed.

Lemma missing_list_leaves_partial_effect_witness :
  let result := add_sensor (configured None) (bench_world None)
                           "dht22_1" "DHT22" ∅ in
  result.1.1 = false /\ sensor_ids result.1.2 = ["dht22_1"].
Proof.
  destruct (missing_list_leaves_partial_effect (configured None)
              (bench_world None) "dht22_1" eq_refl) as [Hadd _].
  destruct (Hadd "DHT22" ∅ _ _ eq_refl eq_refl eq_refl) as (Hfalse&_).
  cbv zeta. rewrite Hfalse. split; [done|]. vm_compute. reflexivity.
Defined.

(** X19: [remove_sensor] on an id the manager has no sensor for answers
    [False] and changes nothing; on a known id, with the list of sensors
    in the configuration, it answers [True], the sensor is gone, the other
    sensors and their order are kept, every item with that id is gone from
    the list while the other items keep their order, and the file, if it
    can be written, holds the new list. *)
Theorem remove_sensor_forgets_the_sensor (r : t) (e : env) id :
  (SensorManager.get_sensor (SensorManager.sensors (manager r)) id = None ->
   remove_sensor r e id = (false, r, e)) /\
  (forall entries,
     is_Some (SensorManager.get_sensor (SensorManager.sensors (manager r)) id) ->
     config_sensors r = Some entries ->
     let r' := (remove_sensor r e id).1.2 in
     let e' := (remove_sensor r e id).2 in
     (remove_sensor r e id).1.1 = true /\
     SensorManager.get_sensor (SensorManager.sensors (manager r')) id = None /\
     (forall other, other <> id ->
        SensorManager.get_sensor (SensorManager.sensors (manager r')) other
        = SensorManager.get_sensor (SensorManager.sensors (manager r)) other) /\
     sensor_ids r'
     = List.filter (fun key => negb (String.eqb key id)) (sensor_ids r) /\
     config_sensors r'
     = Some (List.filter (fun s => negb (String.eqb (entry_id s) id)) entries) /\
     (forall entries', config_sensors r' = Some entries' ->
        id ∉ entry_id <$> entries') /\
     (if SensorManager.disk_writable (world e) then
        saved_sensors e' = config_sensors r'
      else e' = e)).
Proof.
  split.
  - unfold remove_sensor. by intros ->.
  - intros entries [old Hold] Hlist r' e'. subst r' e'.
    destruct (del_sensor_spec (SensorManager.sensors (manager r)) id)
      as (Hgone&Hothers&Hkeys).
    unfold remove_sensor. rewrite Hold, Hlist.
    unfold save_config, sensor_ids. simpl.
    destruct (SensorManager.disk_writable (world e)); simpl;
      repeat split; try done.
    all: intros entries' [= <-] Hin;
      apply list_elem_of_fmap in Hin as (s&->&Hin);
      apply list_elem_of_In, List.filter_In in Hin as [_ Hne];
      by rewrite String.eqb_refl in Hne.
Qed.

Lemma remove_sensor_forgets_the_sensor_witness :
  let r := (add_entries bench_entries (configured (Some bench_entries))
                        (bench_world (Some bench_entries))).1 in
  let e := (add_entries bench_entries (configured (Some bench_entries))
                        (bench_world (Some bench_entries))).2 in
  (remove_sensor r e "bmp280_1").1.1 = true /\
  sensor_ids (remove_sensor r e "bmp280_1").1.2 = ["dht22_1"] /\
  option_map (map entry_id) (saved_sensors (remove_sensor r e "bmp280_1").2)
  = Some ["dht22_1"; "bmp280_2"; "bme280_1"; "dht22_1"].
Proof.
  intros r e.
  assert (Hlist : config_sensors r
                  = Some (bench_entries
                          ++ [mk_entry "bmp280_1" "BMP280" ∅ "2024-01-01T00:00:00";
                              mk_entry "dht22_1" "DHT22" {[ "pin" := JInt 4 ]}
                                       "2024-01-01T00:00:00"]))
    by (vm_compute; reflexivity).
  destruct (remove_sensor_forgets_the_sensor r e "bmp280_1") as [_ Hknown].
  destruct (Hknown _ ltac:(vm_compute; eexists; reflexivity) Hlist)
    as (Hok&_&_&Hids&Hnew&_&Hsaved).
  assert (Hdisk : SensorManager.disk_writable (world e) = true)
    by (vm_compute; reflexivity).
  rewrite Hdisk in Hsaved. rewrite Hok, Hids, Hsaved, Hnew.
  vm_compute. repeat split.
Defined.

(** X20: removing a sensor right after it was added gives back the
    manager as it was before, list of sensors included, provided the list
    had no item with that id; only the file and the clock have moved. *)
Theorem add_then_remove_restores (r : t) (e : env) id type cfg entries :
  (add_sensor r e id type cfg).1.1 = true ->
  config_sensors r = Some entries ->
  id ∉ entry_id <$> entries ->
  (remove_sensor (add_sensor r e id type cfg).1.2
                 (add_sensor r e id type cfg).2 id).1
  = (true, r).
Proof.
  intros Hok Hlist Hnew.
  assert (Hkeep : List.filter (fun s => negb (String.eqb (entry_id s) id)) entries
                  = entries).
  { clear Hlist. induction entries as [|x rest IH]; simpl; [done|].
    rewrite fmap_cons, not_elem_of_cons in Hnew. destruct Hnew as [Hne Hrest].
    destruct (String.eqb_spec (entry_id x) id); [congruence|]. simpl.
    by rewrite IH. }
  unfold add_sensor in *.
  destruct (SensorManager.get_sensor _ id) as [old|] eqn:Hfree; [done|].
  destruct (Sensors.get_sensor_class type) as [class|]; [|done].
  destruct (Sensors.create (site e) class id cfg) as [sensor|]; [|done].
  rewrite Hlist in *. destruct (get_sensor_app _ id sensor Hfree) as [Hget _].
  unfold Clock.now, remove_sensor. simpl. rewrite Hget. simpl.
  rewrite List.filter_app, Hkeep. simpl. rewrite String.eqb_refl. simpl.
  rewrite app_nil_r, del_sensor_app, (del_sensor_fresh _ _ Hfree). simpl.
  rewrite String.eqb_refl. simpl. rewrite app_nil_r.
  destruct r as [[sensors config running thread callback] list].
  simpl in *. by subst.
Qed.

Lemma add_then_remove_restores_witness :
  (remove_sensor
     (add_sensor (configured (Some [])) (bench_world (Some []))
                 "bmp280_1" "BMP280" ∅).1.2
     (add_sensor (configured (Some [])) (bench_world (Some []))
                 "bmp280_1" "BMP280" ∅).2 "bmp280_1").1
  = (true, configured (Some [])).
Proof.
  apply (add_then_remove_restores (configured (Some [])) (bench_world (Some []))
           "bmp280_1" "BMP280" ∅ []).
  - vm_compute. reflexivity.
  - reflexivity.
  - apply not_elem_of_nil.
Defined.

(** X21: [add_sensor] and [remove_sensor] keep the dictionary well keyed
    (every sensor under a key of its own, which is its [sensor_id]) and
    keep every sensor of the dictionary listed in the configuration,
    whatever they answer. *)
Theorem sensor_set_invariants (r : t) (e : env) id type cfg :
  well_keyed r -> listed r ->
  (well_keyed (add_sensor r e id type cfg).1.2 /\
   listed (add_sensor r e id type cfg).1.2) /\
  (well_keyed (remove_sensor r e id).1.2 /\
   listed (remove_sensor r e id).1.2).
Proof.
  intros [Hnodup Hkeys] Hlisted. unfold well_keyed, listed, sensor_ids in *.
  split.
  - destruct (add_sensor_cases r e id type cfg)
      as [->|(class&sensor&Hfree&_&Hcreate&Hmanager&_&Hlist)]; [done|].
    destruct (create_fresh _ _ _ _ _ Hcreate) as (Hid&_).
    apply get_sensor_None in Hfree.
    rewrite Hmanager. simpl. rewrite fmap_app. simpl.
    split; [split|].
    + apply NoDup_app. split; [done|]. split; [|apply NoDup_singleton].
      intros x Hx Hin. apply list_elem_of_singleton in Hin. by subst.
    + apply Forall_app. split; [done|]. by apply Forall_singleton.
    + destruct Hlist as [[_ ->]|(entries&Hentries&_&->)]; [done|].
      intros entries' [= <-] x Hx. rewrite fmap_app. simpl.
      apply elem_of_app in Hx as [Hx|Hx]; apply elem_of_app; [left|by right].
      by apply (Hlisted entries Hentries).
  - unfold remove_sensor.
    destruct (SensorManager.get_sensor _ id) as [old|]; [|done].
    destruct (del_sensor_spec (SensorManager.sensors (manager r)) id)
      as (_&_&Hdel).
    assert (Hwell :
              NoDup (del_sensor (SensorManager.sensors (manager r)) id).*1 /\
              Forall (fun x => BaseSensor.sensor_id x.2 = x.1)
                     (del_sensor (SensorManager.sensors (manager r)) id)).
    { split.
      - rewrite Hdel. clear -Hnodup.
        induction Hnodup as [|key keys Hnot _ IH]; simpl; [constructor|].
        destruct (negb (String.eqb key id)); [|done].
        constructor; [|done]. intros Hin. apply Hnot.
        by apply list_elem_of_In, List.filter_In in Hin as [Hin%list_elem_of_In _].
      - apply Forall_forall. intros x Hx.
        apply list_elem_of_In, List.filter_In in Hx as [Hx%list_elem_of_In _].
        by apply (proj1 (Forall_forall _ _) Hkeys). }
    destruct (config_sensors r) as [entries|] eqn:Hentries; simpl;
      (split; [done|]); [|done].
    intros entries' [= <-] x Hx. rewrite Hdel in Hx.
    apply list_elem_of_In, List.filter_In in Hx as [Hx%list_elem_of_In Hne].
    apply (Hlisted entries eq_refl) in Hx.
    apply list_elem_of_fmap in Hx as (s&->&Hs).
    apply list_elem_of_fmap. exists s. split; [done|].
    apply list_elem_of_In, List.filter_In. split; [by apply list_elem_of_In|done].
Qed.

Lemma sensor_set_invariants_witness :
  well_keyed (add_sensor (configured (Some [])) (bench_world (Some []))
                         "bmp280_1" "BMP280" ∅).1.2.
Proof.
  apply (sensor_set_invariants (configured (Some [])) (bench_world (Some []))
           "bmp280_1" "BMP280" ∅).
  - split; [apply NoDup_nil_2|apply Forall_nil_2].
  - intros entries _ x Hx. by apply elem_of_nil in Hx.
Defined.

(** Past the items whose sensors are in the dictionary already, the loop
    of [initialize_from_config] changes nothing and ends. *)
Lemma initialize_loop_tail (fuel : nat) :
  forall (index : nat) (r : t) (e : env) (entries : list entry),
  config_sensors r = Some entries ->
  (forall j item, index <= j -> entries !! j = Some item ->
     is_Some (SensorManager.get_sensor (SensorManager.sensors (manager r))
                                       (entry_id item))) ->
  length entries - index < fuel ->
  initialize_loop fuel index r e = Returned r e.
Proof.
  induction fuel as [|fuel IH]; intros index r e entries Hlist Hknown Hfuel;
    [lia|].
  simpl. rewrite Hlist.
  destruct (entries !! index) as [item|] eqn:Hitem; [|done].
  destruct (Hknown index item (Nat.le_refl _) Hitem) as [old Hold].
  unfold add_sensor. rewrite Hold.
  apply lookup_lt_Some in Hitem.
  apply (IH (S index) r e entries Hlist); [|lia].
  intros j item' Hj. apply Hknown. lia.
Qed.

Lemma add_entries_cons (item : entry) (items : list entry) (r : t) (e : env) :
  add_entries (item :: items) r e
  = add_entries items
      (add_sensor r e (entry_id item) (entry_type item) (entry_config item)).1.2
      (add_sensor r e (entry_id item) (entry_type item) (entry_config item)).2.
Proof.
  unfold add_entries. simpl. unfold add_entry at 2. simpl.
  by destruct (add_sensor r e (entry_id item) (entry_type item)
                 (entry_config item)) as [[ok r1] e1].
Qed.

(** The loop visits the items the list had at the start, and then the
    items it has appended itself, which it refuses as duplicates. *)
Lemma initialize_loop_adds (rest : list entry) :
  forall (visited added : list entry) (r : t) (e : env) (fuel : nat),
  config_sensors r = Some (visited ++ rest ++ added) ->
  Forall (fun item =>
            is_Some (SensorManager.get_sensor
                       (SensorManager.sensors (manager r)) (entry_id item)))
         added ->
  2 * length rest + length added < fuel ->
  initialize_loop fuel (length visited) r e
  = Returned (add_entries rest r e).1 (add_entries rest r e).2.
Proof.
  induction rest as [|item rest IH];
    intros visited added r e fuel Hlist Hadded Hfuel.
  - simpl in *. apply (initialize_loop_tail _ _ _ _ _ Hlist).
    + intros j x Hj Hx. rewrite lookup_app_r in Hx by done.
      apply (proj1 (Forall_forall _ _) Hadded).
      by apply list_elem_of_lookup_2 in Hx.
    + rewrite length_app. lia.
  - destruct fuel as [|fuel]; [lia|]. rewrite <- app_comm_cons in Hlist.
    simpl initialize_loop. rewrite Hlist.
    rewrite (list_lookup_middle visited (rest ++ added) item (length visited)
               eq_refl).
    rewrite add_entries_cons.
    assert (Hstep :
              (let '(_, r0, e0) :=
                 add_sensor r e (entry_id item) (entry_type item)
                            (entry_config item) in
               initialize_loop fuel (S (length visited)) r0 e0)
              = initialize_loop fuel (S (length visited))
                  (add_sensor r e (entry_id item) (entry_type item)
                              (entry_config item)).1.2
                  (add_sensor r e (entry_id item) (entry_type item)
                              (entry_config item)).2).
    { by destruct (add_sensor r e (entry_id item) (entry_type item)
                     (entry_config item)) as [[ok r1] e1]. }
    rewrite Hstep. clear Hstep.
    destruct (add_sensor_cases r e (entry_id item) (entry_type item)
                (entry_config item))
      as [Hsame|(class&sensor&Hfree&_&_&Hmanager&_&Hcases)].
    + rewrite Hsame. simpl.
      replace (S (length visited)) with (length (visited ++ [item]))
        by (rewrite length_app; simpl; lia).
      apply (IH (visited ++ [item]) added r e fuel).
      * by rewrite <- app_assoc.
      * done.
      * simpl in Hfuel. lia.
    + destruct Hcases as [[Hnone _]|(entries&Hentries&_&Hnew)];
        [congruence|].
      rewrite Hlist in Hentries. injection Hentries as <-.
      destruct (add_sensor r e (entry_id item) (entry_type item)
                  (entry_config item)) as [[ok r1] e1].
      simpl in Hmanager, Hnew |- *.
      replace (S (length visited)) with (length (visited ++ [item]))
        by (rewrite length_app; simpl; lia).
      destruct (get_sensor_app _ (entry_id item) sensor Hfree) as [Hget Hold].
      apply (IH (visited ++ [item])
                (added ++ [mk_entry (entry_id item) (entry_type item)
                             (entry_config item)
                             (Clock.now (SensorManager.clock (world e))).1])
                r1 e1 fuel).
      * rewrite Hnew. f_equal. rewrite <- !app_assoc. simpl.
        by rewrite <- ?app_assoc.
      * rewrite Hmanager. simpl. apply Forall_app. split.
        -- eapply Forall_impl; [exact Hadded|]. intros x [old Hx]. simpl in Hx.
           destruct (decide (entry_id x = entry_id item)) as [->|Hne];
             [by rewrite Hget|].
           rewrite (Hold _ Hne). by eexists.
        -- apply Forall_singleton. simpl. by rewrite Hget.
      * rewrite length_app. simpl in Hfuel |- *. lia.
Qed.

(** What adding the sensors of a list of items makes of the list of the
    configuration and of the dictionary. *)
Lemma add_entries_appends (items : list entry) :
  forall (r : t) (e : env) (entries : list entry),
  config_sensors r = Some entries ->
  exists added,
    config_sensors (add_entries items r e).1 = Some (entries ++ added) /\
    sensor_ids (add_entries items r e).1
    = sensor_ids r ++ (entry_id <$> added) /\
    Forall (fun a => exists item, item ∈ items /\
                       entry_id a = entry_id item /\
                       entry_type a = entry_type item /\
                       entry_config a = entry_config item) added.
Proof.
  induction items as [|item items IH]; intros r e entries Hlist.
  - exists []. simpl. by rewrite !app_nil_r.
  - rewrite add_entries_cons.
    destruct (add_sensor_cases r e (entry_id item) (entry_type item)
                (entry_config item))
      as [Hsame|(class&sensor&Hfree&_&_&Hmanager&_&Hcases)].
    + rewrite Hsame. simpl.
      destruct (IH r e entries Hlist) as (added&Hconfig&Hids&Hfrom).
      exists added. split; [done|]. split; [done|].
      eapply Forall_impl; [exact Hfrom|].
      intros a (x&Hx&Hsame'). exists x. split; [by right|done].
    + destruct Hcases as [[Hnone _]|(entries'&Hentries&_&Hnew)];
        [congruence|].
      rewrite Hlist in Hentries. injection Hentries as <-.
      assert (Hids1 : sensor_ids (add_sensor r e (entry_id item)
                                    (entry_type item) (entry_config item)).1.2
                      = sensor_ids r ++ [entry_id item]).
      { unfold sensor_ids. rewrite Hmanager. simpl. by rewrite fmap_app. }
      destruct (add_sensor r e (entry_id item) (entry_type item)
                  (entry_config item)) as [[ok r1] e1].
      simpl in Hnew, Hids1 |- *.
      destruct (IH r1 e1 _ Hnew) as (added&Hconfig&Hids&Hfrom).
      exists (mk_entry (entry_id item) (entry_type item) (entry_config item)
                (Clock.now (SensorManager.clock (world e))).1 :: added).
      split; [by rewrite Hconfig, <- app_assoc|].
      split; [by rewrite Hids, Hids1, <- app_assoc|].
      constructor.
      * exists item. split; [by left|done].
      * eapply Forall_impl; [exact Hfrom|].
        intros a (x&Hx&Hsame'). exists x. split; [by right|done].
Qed.

(** X22: [initialize_from_config] raises when the configuration has no
    list of sensors; otherwise it returns, having tried to add the sensor
    of each item the list had at the start, in order, once; the walk is
    over within twice the length of that list plus one steps.  As
    [add_sensor] appends to the list that is being walked, the list ends
    up with a second item for every sensor that was brought up, after the
    items it had, with the same id, type and configuration: the list in
    the configuration, and in the file, grows at every start. *)
Theorem initialize_from_config_relists_sensors (r : t) (e : env) :
  (config_sensors r = None -> initialize_from_config r e = Raised) /\
  (forall entries,
     config_sensors r = Some entries ->
     initialize_from_config r e
     = Returned (add_entries entries r e).1 (add_entries entries r e).2 /\
     (forall fuel, 2 * length entries < fuel ->
        initialize_loop fuel 0 r e = initialize_from_config r e) /\
     exists added,
       config_sensors (add_entries entries r e).1 = Some (entries ++ added) /\
       sensor_ids (add_entries entries r e).1
       = sensor_ids r ++ (entry_id <$> added) /\
       Forall (fun a => exists item, item ∈ entries /\
                          entry_id a = entry_id item /\
                          entry_type a = entry_type item /\
                          entry_config a = entry_config item) added).
Proof.
  unfold initialize_from_config. split; [by intros ->|].
  intros entries Hlist. rewrite Hlist.
  assert (Hloop : forall fuel, 2 * length entries < fuel ->
            initialize_loop fuel 0 r e
            = Returned (add_entries entries r e).1 (add_entries entries r e).2).
  { intros fuel Hfuel. apply (initialize_loop_adds entries [] [] r e).
    - by rewrite app_nil_r.
    - constructor.
    - simpl. lia. }
  split; [apply Hloop; lia|]. split.
  - intros fuel Hfuel. rewrite (Hloop fuel Hfuel). symmetry. apply Hloop. lia.
  - by apply add_entries_appends.
Qed.

Lemma initialize_from_config_relists_sensors_witness :
  exists r e,
    initialize_from_config (configured (Some bench_entries))
                           (bench_world (Some bench_entries))
    = Returned r e /\
    sensor_ids r = ["bmp280_1"; "dht22_1"] /\
    option_map (map entry_id) (saved_sensors e)
    = Some ["bmp280_1"; "dht22_1"; "bmp280_2"; "bme280_1";
            "bmp280_1"; "dht22_1"].
Proof.
  destruct (initialize_from_config_relists_sensors
              (configured (Some bench_entries))
              (bench_world (Some bench_entries))) as [_ Hreturns].
  destruct (Hreturns bench_entries eq_refl) as [-> _].
  eexists _, _. split; [reflexivity|]. vm_compute. repeat split.
Defined.

(** [k] reads of a sensor whose hardware raises [detail] every time. *)
Lemma poll_raising k detail :
  forall (s : BaseSensor.t) clock,
  (forall n, BaseSensor.hardware s n = BaseSensor.Raises detail) ->
  map (fun r => (Reading.status r, Reading.error r, Reading.readings r))
      (BaseSensor.poll k s clock).1.1
  = replicate k ("error", Some detail, ∅) /\
  BaseSensor.error_count (BaseSensor.poll k s clock).1.2
  = BaseSensor.error_count s + k /\
  BaseSensor.last_reading (BaseSensor.poll k s clock).1.2
  = BaseSensor.last_reading s.
Proof.
  induction k as [|k IH]; intros s clock Hraises; simpl.
  - repeat split; [lia].
  - pose proof (read_with_metadata_hardware s clock) as (Hhw&_).
    destruct (read_with_metadata_raises s clock detail (Hraises _))
      as (Hstatus&Herror&_&Hempty&_&Hcount&Hlast).
    destruct (BaseSensor.read_with_metadata s clock) as [[reading s1] clock1].
    simpl in Hhw, Hstatus, Herror, Hempty, Hcount, Hlast.
    destruct (IH s1 clock1) as (IHreadings&IHcount&IHlast).
    { intros n. by rewrite Hhw. }
    destruct (BaseSensor.poll k s1 clock1) as [[readings s2] clock2].
    simpl in *. rewrite Hstatus, Herror, Hempty, IHreadings, IHcount, IHlast.
    repeat split; [lia|done].
Qed.

(** X23: a DHT22 can always be added: whatever its configuration and
    whatever is wired to the board, [add_sensor] with a free id and type
    [DHT22] answers [True] and registers an active sensor.  That sensor
    never delivers a value: each of its reads gives a reading with status
    [error], the detail [DHT22 sensor reading not yet implemented] and no
    metrics, and after [k] reads its error count is [k] and it still has
    no last reading. *)
Theorem dht22_is_added_but_never_reads (r : t) (e : env) id cfg entries :
  SensorManager.get_sensor (SensorManager.sensors (manager r)) id = None ->
  config_sensors r = Some entries ->
  (add_sensor r e id "DHT22" cfg).1.1 = true /\
  exists sensor,
    SensorManager.get_sensor
      (SensorManager.sensors (manager (add_sensor r e id "DHT22" cfg).1.2)) id
    = Some sensor /\
    BaseSensor.is_active sensor = true /\
    BaseSensor.get_sensor_type sensor = "DHT22" /\
    forall k clock,
      map (fun r => (Reading.status r, Reading.error r, Reading.readings r))
          (BaseSensor.poll k sensor clock).1.1
      = replicate k ("error",
                     Some "DHT22 sensor reading not yet implemented", ∅) /\
      BaseSensor.error_count (BaseSensor.poll k sensor clock).1.2 = k /\
      BaseSensor.last_reading (BaseSensor.poll k sensor clock).1.2 = None.
Proof.
  intros Hfree Hlist.
  set (sensor := BaseSensor.mk id "DHT22"
                   (fun _ => BaseSensor.Raises
                               "DHT22 sensor reading not yet implemented")
                   0 None None true 0).
  destruct (get_sensor_app _ id sensor Hfree) as [Hget _].
  assert (Hadd : (add_sensor r e id "DHT22" cfg).1.1 = true /\
                 SensorManager.sensors
                   (manager (add_sensor r e id "DHT22" cfg).1.2)
                 = SensorManager.sensors (manager r) ++ [(id, sensor)]).
  { unfold add_sensor. rewrite Hfree, Hlist. simpl. done. }
  destruct Hadd as [-> ->]. split; [done|]. exists sensor.
  split; [done|]. split; [done|]. split; [done|].
  intros k clock.
  by destruct (poll_raising k "DHT22 sensor reading not yet implemented"
                 sensor clock (fun _ => eq_refl)) as (->&->&->).
Qed.

Lemma dht22_is_added_but_never_reads_witness :
  (add_sensor (configured (Some [])) (bench_world (Some []))
              "dht22_1" "DHT22" {[ "pin" := JInt 4 ]}).1.1 = true.
Proof.
  apply (dht22_is_added_but_never_reads (configured (Some []))
           (bench_world (Some [])) "dht22_1" {[ "pin" := JInt 4 ]} []);
    reflexivity.
Defined.

Lemma save_config_mirrored (r : t) (e : env) :
  SensorManager.disk_writable (world e) = true ->
  mirrored r (save_config r e) /\
  SensorManager.disk_writable (world (save_config r e)) = true.
Proof.
  intros Hdisk. unfold mirrored, save_config, SensorManager.save_config.
  rewrite Hdisk. simpl. by repeat split.
Qed.

Lemma add_sensor_mirrored (r : t) (e : env) id type cfg :
  SensorManager.disk_writable (world e) = true ->
  mirrored r e ->
  mirrored (add_sensor r e id type cfg).1.2 (add_sensor r e id type cfg).2 /\
  SensorManager.disk_writable (world (add_sensor r e id type cfg).2) = true.
Proof.
  intros Hdisk [Hfile Hlist]. unfold add_sensor.
  destruct (SensorManager.get_sensor _ id); [done|].
  destruct (Sensors.get_sensor_class type) as [class|]; [|done].
  destruct (Sensors.create (site e) class id cfg) as [sensor|]; [|done].
  destruct (config_sensors r) as [entries|] eqn:Hentries; [|done].
  unfold Clock.now. simpl. by apply save_config_mirrored.
Qed.

(** X24: the constructor gives a manager without sensors that is not
    collecting.  A file that exists and can be read becomes the
    configuration and is left alone; when there is no file, or it cannot
    be read, the configuration is the default one with an empty list of
    sensors, and the file is written with it if the disk allows, so that a
    file that could not be read is replaced.  Right after the constructor
    [initialize_from_config] raises exactly when the file was read and has
    no list of sensors. *)
Theorem constructor_loads_or_defaults (readable : bool) (e : env) :
  let r := (__init__ readable e).1 in
  let e' := (__init__ readable e).2 in
  (SensorManager.sensors (manager r) = [] /\
   SensorManager.is_running (manager r) = false /\
   SensorManager.collection_thread (manager r) = None /\
   well_keyed r /\ listed r) /\
  (forall config,
     SensorManager.config_file (world e) = Some config -> readable = true ->
     SensorManager.config (manager r) = config /\
     config_sensors r = saved_sensors e /\ e' = e) /\
  (SensorManager.config_file (world e) = None \/ readable = false ->
   SensorManager.config (manager r) = default_config /\
   config_sensors r = Some [] /\
   if SensorManager.disk_writable (world e) then mirrored r e' else e' = e) /\
  (initialize_from_config r e' = Raised <->
   is_Some (SensorManager.config_file (world e)) /\ readable = true /\
   saved_sensors e = None).
Proof.
  intros r e'. subst r e'. unfold __init__, load_config.
  assert (Hempty : forall config entries,
            well_keyed (mk (SensorManager.mk [] config false None None) entries)
            /\ listed (mk (SensorManager.mk [] config false None None) entries)).
  { intros config entries. split; [split; constructor|].
    intros items _ x Hx. by apply elem_of_nil in Hx. }
  assert (Hruns : forall r0 e0 items,
            config_sensors r0 = Some items ->
            initialize_from_config r0 e0 <> Raised).
  { intros r0 e0 items Hitems. unfold initialize_from_config. rewrite Hitems.
    rewrite (initialize_loop_adds items [] [] r0 e0); [done| |constructor|].
    - by rewrite app_nil_r.
    - simpl. lia. }
  destruct (SensorManager.config_file (world e)) as [config|] eqn:Hfile;
    [destruct readable|]; simpl.
  - split; [by repeat split; apply Hempty|].
    split; [by intros config' [= <-] _|]. split; [by intros [?|?]|].
    destruct (saved_sensors e) as [items|] eqn:Hsaved.
    + split; [intros Hraised; by eapply Hruns in Hraised|].
      by intros (_&_&?).
    + split; [by intros _; split; [eexists|]|done].
  - split; [by repeat split; apply Hempty|]. split; [by intros|].
    split.
    + intros _. split; [done|]. split; [done|].
      unfold save_config, mirrored, SensorManager.save_config.
      by destruct (SensorManager.disk_writable (world e)).
    + split; [intros Hraised; by eapply Hruns in Hraised|].
      by intros (_&?&_).
  - split; [by repeat split; apply Hempty|]. split; [by intros|].
    split.
    + intros _. split; [done|]. split; [done|].
      unfold save_config, mirrored, SensorManager.save_config.
      by destruct (SensorManager.disk_writable (world e)).
    + split; [intros Hraised; by eapply Hruns in Hraised|].
      by intros ([? ?]&_).
Qed.

(** X25: on a disk that can be written, the file keeps holding the
    configuration of the manager: this is so after the constructor, and
    [add_sensor], [remove_sensor] and the adding of the sensors of a list
    of items, as [initialize_from_config] does it, keep it so, whatever
    they answer. *)
Theorem file_mirrors_configuration (r : t) (e : env) :
  SensorManager.disk_writable (world e) = true ->
  (forall readable, mirrored (__init__ readable e).1 (__init__ readable e).2) /\
  (mirrored r e ->
   (forall id type cfg,
      mirrored (add_sensor r e id type cfg).1.2 (add_sensor r e id type cfg).2) /\
   (forall id, mirrored (remove_sensor r e id).1.2 (remove_sensor r e id).2) /\
   (forall items, mirrored (add_entries items r e).1 (add_entries items r e).2)).
Proof.
  intros Hdisk. split.
  - intros readable. unfold __init__, load_config.
    destruct (SensorManager.config_file (world e)) as [config|] eqn:Hfile;
      [destruct readable; [done|]|];
      simpl; by apply save_config_mirrored.
  - intros Hmirrored. split; [|split].
    + intros id type cfg. by apply add_sensor_mirrored.
    + intros id. unfold remove_sensor.
      destruct (SensorManager.get_sensor _ id); [|done].
      destruct Hmirrored as [Hfile Hlist].
      destruct (config_sensors r) as [entries|] eqn:Hentries; [|done].
      simpl. by apply save_config_mirrored.
    + intros items. revert r e Hdisk Hmirrored.
      induction items as [|item items IH]; intros r e Hdisk Hmirrored; [done|].
      rewrite add_entries_cons.
      destruct (add_sensor_mirrored r e (entry_id item) (entry_type item)
                  (entry_config item) Hdisk Hmirrored) as [Hnext Hdisk'].
      by apply IH.
Qed.

Lemma file_mirrors_configuration_witness :
  mirrored
    (add_entries bench_entries (configured (Some bench_entries))
                 (bench_world (Some bench_entries))).1
    (add_entries bench_entries (configured (Some bench_entries))
                 (bench_world (Some bench_entries))).2.
Proof.
  apply (file_mirrors_configuration (configured (Some bench_entries))
           (bench_world (Some bench_entries)) eq_refl).
  split; reflexivity.
Defined.

End SensorSetProperties.

(** ** The size trigger and the time trigger *)

Section Triggers.

Import CloudPublisher.





End Triggers.
